(** * phantom_core: OHLCV bars, gap filling, cleaning and the market calendar

    Shallow embedding of [src/phantom_core/ohlcv.py] (and of the helpers it
    imports from [dataframe_transforms], [utils] and [market_calendar], which
    are modelled from the design document where marked).

    Conventions:
    - durations and timestamps are [Z] counts of microseconds (the resolution
      of [datetime.timedelta]); timestamps are wall-clock times in the zone of
      the table they belong to;
    - Python floats are modelled as exact rationals [Q];
    - a raised exception is [Err e] of the [result] monad. *)

From Stdlib Require Import ZArith QArith Qabs Qminmax String List Bool Lia Lqa.
From Stdlib Require Import Sorting.Sorted Sorting.Permutation.
Import ListNotations.

Open Scope Z_scope.

(* ------------------------------------------------------------------ *)
(** ** Exceptions and the result monad *)

Inductive py_error :=
| ValueError
| NotImplementedError
| AssertionError
| KeyError
| IndexError
| TypeError
| ZeroDivisionError.

Inductive result (A : Type) :=
| Ok (a : A)
| Err (e : py_error).
Arguments Ok {A} a.
Arguments Err {A} e.

Definition bind {A B : Type} (m : result A) (k : A -> result B) : result B :=
  match m with
  | Ok a => k a
  | Err e => Err e
  end.

Notation "x <- m ;; k" := (bind m (fun x => k))
  (at level 61, m at next level, right associativity).

Definition is_err {A : Type} (m : result A) : bool :=
  match m with Ok _ => false | Err _ => true end.

(* ------------------------------------------------------------------ *)
(** ** Durations *)

Definition MICROS_PER_MINUTE : Z := 60000000.
Definition MIN_1 : Z := MICROS_PER_MINUTE.
Definition MIN_5 : Z := 5 * MICROS_PER_MINUTE.
Definition HOUR_1 : Z := 60 * MICROS_PER_MINUTE.
Definition DAILY : Z := 1440 * MICROS_PER_MINUTE.

(** Python objects met by the mixed comparison [offset % minute != 0]
    in [validate_ohlcvaggspec]: the left operand is a timedelta, the right
    one the int [0]. *)
Inductive pyobj :=
| PyTimedelta (us : Z)
| PyInt (z : Z).

(** [a != b]: [timedelta.__ne__(int)] and [int.__ne__(timedelta)] both
    return [NotImplemented], so CPython falls back to identity, and a
    timedelta is never the object [0]. *)
Definition py_ne (a b : pyobj) : bool :=
  match a, b with
  | PyTimedelta x, PyTimedelta y => negb (x =? y)
  | PyInt x, PyInt y => negb (x =? y)
  | _, _ => true
  end.

(** [timedelta % timedelta] (floor modulo, a timedelta). *)
Definition td_mod (a b : Z) : pyobj := PyTimedelta (a mod b).

(* ------------------------------------------------------------------ *)
(** ** OHLCVAggSpec *)

Record OHLCVAggSpec := mkSpec {
  ticker : string;
  timeframe : Z;
  offset : Z
}.

(** [OHLCVAggSpec.validate_ohlcvaggspec] *)
Definition validate_ohlcvaggspec (s : OHLCVAggSpec) : result unit :=
  if negb (existsb (Z.eqb s.(timeframe)) [MIN_1; MIN_5]) then Err NotImplementedError
  else if s.(offset) <? 0 then Err ValueError
  else if 0 <? s.(offset) then
    if py_ne (td_mod s.(offset) MIN_1) (PyInt 0) then Err ValueError
    else if s.(timeframe) <? s.(offset) then Err ValueError
    else if HOUR_1 <? s.(offset) then Err NotImplementedError
    else Ok tt
  else Ok tt.

(** [OHLCVAggSpec(ticker=..., timeframe=..., offset=...)] *)
Definition make_spec (tk : string) (tf off : Z) : result OHLCVAggSpec :=
  let s := mkSpec tk tf off in
  _ <- validate_ohlcvaggspec s ;;
  Ok s.

(* ------------------------------------------------------------------ *)
(** ** OHLCVAgg *)

(** [OHLCVAgg] extends [OHLCVAggSpec]; the inherited fields are kept in
    [spec] (the source's [spec] property). *)
Record OHLCVAgg := mkAgg {
  spec : OHLCVAggSpec;
  start_ts : Z;
  end_ts : Z;
  open : Q;
  high : Q;
  low : Q;
  close : Q;
  volume : Q;
  vwap : Q;
  transactions : Q;
  avg_size : Q
}.

(** [numpy.isclose(a, b, rtol=rtol)] with numpy's default [atol = 1e-08]:
    [abs(a - b) <= atol + rtol * abs(b)]. *)
Definition np_default_atol : Q := 1 # 100000000.

Definition np_isclose (a b rtol : Q) : bool :=
  Qle_bool (Qabs (a - b)) (np_default_atol + rtol * Qabs b).

(** [OHLCVAgg.validate_ohlcvagg] *)
Definition validate_ohlcvagg (x : OHLCVAgg) : result unit :=
  if negb (x.(end_ts) - x.(start_ts) =? x.(spec).(timeframe)) then Err ValueError
  else if Qeq_bool x.(volume) 0 then
    if negb (Qeq_bool x.(transactions) 0) then Err ValueError
    else if negb (Qeq_bool x.(avg_size) 0) then Err ValueError
    else Ok tt
  else if negb (np_isclose (x.(transactions) / x.(volume)) x.(avg_size) (1 # 100)) then
    Err ValueError
  else Ok tt.

(** [OHLCVAgg(...)]: pydantic runs the inherited validator, then the
    class's own one. *)
Definition construct_ohlcvagg (x : OHLCVAgg) : result OHLCVAgg :=
  _ <- validate_ohlcvaggspec x.(spec) ;;
  _ <- validate_ohlcvagg x ;;
  Ok x.

(** [OHLCVAgg.create]: [end_ts] and [transactions]/[avg_size] optional.
    Python float division by [0.0] raises [ZeroDivisionError]. *)
Definition create (tk : string) (tf st : Z) (o h l c v vw : Q)
    (e : option Z) (tr : option Q) (av : option Q) : result OHLCVAgg :=
  let et := match e with Some e' => e' | None => st + tf end in
  ta <- match tr, av with
        | None, None => Err ValueError
        | None, Some a => Ok (v * a, a)%Q
        | Some t, None =>
            if Qeq_bool v 0 then Err ZeroDivisionError else Ok (t, t / v)%Q
        | Some t, Some a => Ok (t, a)
        end ;;
  construct_ohlcvagg
    (mkAgg (mkSpec tk tf 0) st et o h l c v vw (fst ta) (snd ta)).

(** [pd.DataFrame([agg.to_series() ...]).sort_index()]: rows indexed by
    [start_ts], sorted by it (insertion sort). *)
Fixpoint insert_by_start (b : OHLCVAgg) (l : list OHLCVAgg) : list OHLCVAgg :=
  match l with
  | [] => [b]
  | x :: r => if x.(start_ts) <? b.(start_ts) then x :: insert_by_start b r
              else b :: x :: r
  end.

Fixpoint sort_index (l : list OHLCVAgg) : list OHLCVAgg :=
  match l with
  | [] => []
  | x :: r => insert_by_start x (sort_index r)
  end.

(** Number of rows carrying index label [t]; [float(df.loc[t][...])] raises
    [TypeError] when the label selects more than one row. *)
Definition label_count (t : Z) (rows : list OHLCVAgg) : nat :=
  length (filter (fun b => b.(start_ts) =? t) rows).

Definition col_max (f : OHLCVAgg -> Q) (b0 : OHLCVAgg) (rows : list OHLCVAgg) : Q :=
  fold_left (fun m b => Qmax m (f b)) rows (f b0).

Definition col_min (f : OHLCVAgg -> Q) (b0 : OHLCVAgg) (rows : list OHLCVAgg) : Q :=
  fold_left (fun m b => Qmin m (f b)) rows (f b0).

Definition col_sum (f : OHLCVAgg -> Q) (rows : list OHLCVAgg) : Q :=
  fold_right (fun b s => f b + s)%Q 0%Q rows.

Definition col_mean (f : OHLCVAgg -> Q) (rows : list OHLCVAgg) : Q :=
  (col_sum f rows / inject_Z (Z.of_nat (length rows)))%Q.

(** [OHLCVAgg.create_from_aggs] *)
Definition create_from_aggs (sp : OHLCVAggSpec) (aggs : list OHLCVAgg) : result OHLCVAgg :=
  let df := sort_index aggs in
  match df with
  | [] => Err IndexError
  | first :: _ =>
      let lst := last df first in
      let st := first.(start_ts) in
      let et := lst.(start_ts) in
      if (1 <? label_count st df)%nat then Err TypeError
      else if (1 <? label_count et df)%nat then Err TypeError
      else
        construct_ohlcvagg
          (mkAgg (mkSpec sp.(ticker) sp.(timeframe) sp.(offset))
             st et
             first.(open)
             (col_max high first df)
             (col_min low first df)
             lst.(close)
             (col_sum volume df)
             (col_sum vwap df)
             (col_sum transactions df)
             (col_mean avg_size df))
  end.

(** Identity: [__hash__] / [__eq__].  Python's tuple hash is abstracted as
    arbitrary functions of the hashed tuple. *)
Section Identity.
Variable hash_spec_key : string * Z -> Z.
Variable hash_agg_key : string * Z * Z -> Z.

(** [OHLCVAggSpec.__hash__] *)
Definition spec_hash (s : OHLCVAggSpec) : Z := hash_spec_key (s.(ticker), s.(timeframe)).

(** [OHLCVAggSpec.__eq__] *)
Definition spec_eq (a b : OHLCVAggSpec) : bool := spec_hash a =? spec_hash b.

(** [OHLCVAgg.__hash__] *)
Definition agg_hash (x : OHLCVAgg) : Z :=
  hash_agg_key (x.(spec).(ticker), x.(spec).(timeframe), x.(start_ts)).

(** [OHLCVAgg] inherits [__eq__]: [hash(self) == hash(other)]. *)
Definition agg_eq (a b : OHLCVAgg) : bool := agg_hash a =? agg_hash b.

End Identity.

(* ------------------------------------------------------------------ *)
(** ** Time-indexed tables *)

(** A cell value: numeric or string (ticker, table name); [None] is null. *)
Inductive cell :=
| CNum (q : Q)
| CStr (s : string).

Definition cell_eqb (a b : cell) : bool :=
  match a, b with
  | CNum x, CNum y => Qeq_bool x y
  | CStr x, CStr y => String.eqb x y
  | _, _ => false
  end.

Definition row := (Z * list (option cell))%type.

(** A [pd.DataFrame] with a timestamp index: the index's zone, the column
    names, and the rows (index label, cells in column order). *)
Record DataFrame := mkDF {
  tz : option string;
  columns : list string;
  rows : list row
}.

Definition index (df : DataFrame) : list Z := map fst df.(rows).

Fixpoint col_pos (c : string) (cols : list string) : option nat :=
  match cols with
  | [] => None
  | x :: r => if String.eqb x c then Some O
              else match col_pos c r with Some k => Some (S k) | None => None end
  end.

Definition has_col (df : DataFrame) (c : string) : bool :=
  match col_pos c df.(columns) with Some _ => true | None => false end.

Definition cell_at (k : nat) (r : row) : option cell := nth k (snd r) None.

(** [df[c]]: [KeyError] when the column is absent. *)
Definition get_col (df : DataFrame) (c : string) : result (list (option cell)) :=
  match col_pos c df.(columns) with
  | Some k => Ok (map (cell_at k) df.(rows))
  | None => Err KeyError
  end.

Fixpoint replace_nth {A : Type} (k : nat) (x : A) (l : list A) : list A :=
  match k, l with
  | _, [] => []
  | O, _ :: r => x :: r
  | S k', y :: r => y :: replace_nth k' x r
  end.

Fixpoint set_cells (k : nat) (rs : list row) (vals : list (option cell)) : list row :=
  match rs, vals with
  | r :: rs', v :: vs => (fst r, replace_nth k v (snd r)) :: set_cells k rs' vs
  | _, _ => rs
  end.

Fixpoint append_cells (rs : list row) (vals : list (option cell)) : list row :=
  match rs, vals with
  | r :: rs', v :: vs => (fst r, snd r ++ [v]) :: append_cells rs' vs
  | r :: rs', [] => (fst r, snd r ++ [None]) :: append_cells rs' []
  | [], _ => []
  end.

(** [df[c] = vals] (a series on the same index): overwrite the column, or
    append it when absent. *)
Definition set_col (df : DataFrame) (c : string) (vals : list (option cell)) : DataFrame :=
  match col_pos c df.(columns) with
  | Some k => mkDF df.(tz) df.(columns) (set_cells k df.(rows) vals)
  | None => mkDF df.(tz) (df.(columns) ++ [c]) (append_cells df.(rows) vals)
  end.

(** [series.fillna(x)] *)
Definition fillna_value (x : cell) (s : list (option cell)) : list (option cell) :=
  map (fun o => match o with None => Some x | Some _ => o end) s.

(** [series.fillna(other_series)] (same index). *)
Fixpoint fillna_series (s o : list (option cell)) : list (option cell) :=
  match s, o with
  | a :: s', b :: o' => (match a with None => b | Some _ => a end) :: fillna_series s' o'
  | _, _ => s
  end.

(** [series.ffill()] *)
Fixpoint ffill_from (prev : option cell) (s : list (option cell)) : list (option cell) :=
  match s with
  | [] => []
  | None :: r => prev :: ffill_from prev r
  | Some x :: r => Some x :: ffill_from (Some x) r
  end.

Definition ffill (s : list (option cell)) : list (option cell) := ffill_from None s.

(** [series.dropna().iloc[0]] *)
Fixpoint first_nonnull (s : list (option cell)) : result cell :=
  match s with
  | [] => Err IndexError
  | Some x :: _ => Ok x
  | None :: r => first_nonnull r
  end.

Fixpoint foldM {A B : Type} (f : A -> B -> result A) (l : list B) (a : A) : result A :=
  match l with
  | [] => Ok a
  | x :: r => a' <- f a x ;; foldM f r a'
  end.

Definition all_nonnull (s : list (option cell)) : bool :=
  forallb (fun o => match o with Some _ => true | None => false end) s.

(** [df.isnull().sum().sum() == 0] *)
Definition no_nulls (df : DataFrame) : bool :=
  forallb (fun r => all_nonnull (snd r)) df.(rows).

Fixpoint distinct_cells (s : list cell) : list cell :=
  match s with
  | [] => []
  | x :: r => let d := distinct_cells r in
              if existsb (cell_eqb x) d then d else x :: d
  end.

Definition nonnull_values (s : list (option cell)) : list cell :=
  flat_map (fun o => match o with Some x => [x] | None => [] end) s.

(** Modelled from the spec: [dataframe_transforms.copy_constant_col_to_all_rows]
    (not in the sources).  "every row's value for that column is overwritten
    with the single non-null value found anywhere in the column. Fails
    (ambiguous-state error) if more than one distinct non-null value exists,
    and fails if zero non-null values exist". *)
Definition copy_constant_col_to_all_rows (df : DataFrame) (c : string) : result DataFrame :=
  vals <- get_col df c ;;
  match distinct_cells (nonnull_values vals) with
  | [v] => Ok (set_col df c (map (fun _ => Some v) vals))
  | _ => Err ValueError
  end.

Definition OHLCV_CNAMES : list string :=
  ["open"; "high"; "low"; "close"; "volume"; "vwap"; "transactions"]%string.

Definition default_constant_cnames : list string := ["ticker"; "table"]%string.

Definition default_fill_zero_cnames : list string :=
  ["volume"; "vwap"; "transactions"; "avg_size"]%string.

(** [fill_ohlcv(df, constant_cnames, fill_zero_cnames)] *)
Definition fill_ohlcv_with (constant_cnames fill_zero_cnames : list string)
    (df : DataFrame) : result DataFrame :=
  df <- foldM (fun d c => if has_col d c then copy_constant_col_to_all_rows d c else Ok d)
          constant_cnames df ;;
  df <- foldM (fun d c => if has_col d c then
                            (v <- get_col d c ;; Ok (set_col d c (fillna_value (CNum 0) v)))
                          else Ok d)
          fill_zero_cnames df ;;
  cl <- get_col df "close" ;;
  let df := set_col df "close" (ffill cl) in
  op <- get_col df "open" ;;
  first_open <- first_nonnull op ;;
  cl <- get_col df "close" ;;
  let df := set_col df "close" (fillna_value first_open cl) in
  df <- foldM (fun d c => v <- get_col d c ;; cl <- get_col d "close" ;;
                          Ok (set_col d c (fillna_series v cl)))
          ["open"; "high"; "low"]%string df ;;
  chk <- foldM (fun ok c => v <- get_col df c ;; Ok (ok && all_nonnull v)) OHLCV_CNAMES true ;;
  if chk then Ok df else Err AssertionError.

Definition fill_ohlcv (df : DataFrame) : result DataFrame :=
  fill_ohlcv_with default_constant_cnames default_fill_zero_cnames df.

(** Modelled from the spec: [utils.get_first_nonnull_ts(df, how='any')]
    (not in the sources): "the first timestamp in the reindexed grid that has
    any non-null value anywhere in its row".  A table with no such row has no
    anchor and is rejected. *)
Fixpoint get_first_nonnull_ts_rows (rs : list row) : result Z :=
  match rs with
  | [] => Err ValueError
  | r :: rs' => if existsb (fun o => match o with Some _ => true | None => false end) (snd r)
                then Ok (fst r) else get_first_nonnull_ts_rows rs'
  end.

Definition get_first_nonnull_ts (df : DataFrame) : result Z := get_first_nonnull_ts_rows df.(rows).

(* ------------------------------------------------------------------ *)
(** ** Market calendar *)

(** Days since 1970-01-01 of a proleptic Gregorian date. *)
Definition days_from_civil (y m d : Z) : Z :=
  let y' := if m <=? 2 then y - 1 else y in
  let era := y' / 400 in
  let yoe := y' - era * 400 in
  let mp := (m + 9) mod 12 in
  let doy := (153 * mp + 2) / 5 + d - 1 in
  let doe := yoe * 365 + yoe / 4 - yoe / 100 + doy in
  era * 146097 + doe - 719468.

(** Year of a day number. *)
Definition year_of_day (z : Z) : Z :=
  let z' := z + 719468 in
  let era := z' / 146097 in
  let doe := z' - era * 146097 in
  let yoe := (doe - doe / 1460 + doe / 36524 - doe / 146096) / 365 in
  let doy := doe - (365 * yoe + yoe / 4 - yoe / 100) in
  let mp := (5 * doy + 2) / 153 in
  let y := yoe + era * 400 in
  if mp <? 10 then y else y + 1.

(** 0 = Sunday, ..., 6 = Saturday (1970-01-01 was a Thursday). *)
Definition weekday (z : Z) : Z := (z + 4) mod 7.

Definition is_weekend (z : Z) : bool := (weekday z =? 0) || (weekday z =? 6).

(** The [n]-th weekday [wd] of month [m] of year [y]. *)
Definition nth_weekday (y m wd n : Z) : Z :=
  let f := days_from_civil y m 1 in
  f + (wd - weekday f) mod 7 + 7 * (n - 1).

(** The last weekday [wd] on or before day [z]. *)
Definition last_weekday_on_or_before (z wd : Z) : Z := z - (weekday z - wd) mod 7.

(** Easter Sunday (anonymous Gregorian algorithm). *)
Definition easter (y : Z) : Z :=
  let a := y mod 19 in
  let b := y / 100 in
  let c := y mod 100 in
  let d := b / 4 in
  let e := b mod 4 in
  let f := (b + 8) / 25 in
  let g := (b - f + 1) / 3 in
  let h := (19 * a + b - d - g + 15) mod 30 in
  let i := c / 4 in
  let k := c mod 4 in
  let l := (32 + 2 * e + 2 * i - h - k) mod 7 in
  let m := (a + 11 * h + 22 * l) / 451 in
  let n := h + l - 7 * m + 114 in
  days_from_civil y (n / 31) (n mod 31 + 1).

(** Weekend observance: Saturday to the Friday before, Sunday to the Monday
    after. *)
Definition nearest_workday (z : Z) : Z :=
  if weekday z =? 6 then z - 1 else if weekday z =? 0 then z + 1 else z.

(** New Year's Day: Sunday to Monday; on a Saturday the exchange does not
    close on the preceding December 31. *)
Definition new_years_observed (y : Z) : list Z :=
  let z := days_from_civil y 1 1 in
  if weekday z =? 6 then [] else if weekday z =? 0 then [z + 1] else [z].

(** Modelled from the spec: the holiday schedule of [market_calendar] (not in
    the sources): "New Year's Day, MLK Day, Presidents' Day, Good Friday,
    Memorial Day, Independence Day, Labor Day, Thanksgiving, Christmas --
    using the conventional US equity-market holiday schedule, including
    weekend-observed-holiday shifting rules". *)
Definition market_holidays (y : Z) : list Z :=
  new_years_observed y ++
  [ nth_weekday y 1 1 3;                                  (* MLK Day *)
    nth_weekday y 2 1 3;                                  (* Presidents' Day *)
    easter y - 2;                                         (* Good Friday *)
    last_weekday_on_or_before (days_from_civil y 5 31) 1; (* Memorial Day *)
    nearest_workday (days_from_civil y 7 4);              (* Independence Day *)
    nth_weekday y 9 1 1;                                  (* Labor Day *)
    nth_weekday y 11 4 4;                                 (* Thanksgiving *)
    nearest_workday (days_from_civil y 12 25) ].          (* Christmas *)

Definition is_holiday (z : Z) : bool := existsb (Z.eqb z) (market_holidays (year_of_day z)).

Definition is_market_day (z : Z) : bool := negb (is_weekend z) && negb (is_holiday z).

(** A [pd.Timestamp]: wall-clock microseconds and its zone ([None]: naive). *)
Record Timestamp := mkTs {
  ts : Z;
  ts_tz : option string
}.

Definition day_of (t : Z) : Z := t / DAILY.

Definition day_range (a b : Z) : list Z :=
  map (fun k => a + Z.of_nat k) (seq 0 (Z.to_nat (b - a + 1))).

(** Modelled from the spec: [market_calendar.get_market_days] (not in the
    sources).  "Inputs MUST both carry timezone information; fails with an
    invalid-input error if either lacks one, or if the two differ in
    timezone. Output preserves the input timezone. A day is included iff it
    falls within [start_ts, end_ts] inclusive, is not a Saturday/Sunday, and
    is not one of the standard market holidays."  Days are the calendar dates
    of the boundaries; each day is returned as its midnight. *)
Definition get_market_days (start_ts end_ts : Timestamp) : result (list Timestamp) :=
  match start_ts.(ts_tz), end_ts.(ts_tz) with
  | None, _ => Err ValueError
  | _, None => Err ValueError
  | Some a, Some b =>
      if negb (String.eqb a b) then Err ValueError
      else Ok (map (fun d => mkTs (d * DAILY) (Some a))
                 (filter is_market_day (day_range (day_of start_ts.(ts)) (day_of end_ts.(ts)))))
  end.

(* ------------------------------------------------------------------ *)
(** ** Reindexing *)

Inductive inclusive := Both | Left | Right | Neither.

Definition incl_left (i : inclusive) : bool :=
  match i with Both | Left => true | _ => false end.
Definition incl_right (i : inclusive) : bool :=
  match i with Both | Right => true | _ => false end.

(** [pd.date_range(start, end, freq=freq, inclusive=incl)] *)
Definition date_range (start end_ freq : Z) (incl : inclusive) : list Z :=
  if end_ <? start then []
  else filter (fun t => (incl_left incl || negb (t =? start)) && (incl_right incl || negb (t =? end_)))
         (map (fun k => start + Z.of_nat k * freq) (seq 0 (S (Z.to_nat ((end_ - start) / freq))))).

Definition time_of_day (t : Z) : Z := t mod DAILY.

(** [DatetimeIndex.indexer_between_time(lo, hi, inclusive)]; a window with
    [lo > hi] wraps past midnight. *)
Definition in_between_time (lo hi : Z) (incl : inclusive) (t : Z) : bool :=
  let x := time_of_day t in
  let after_lo := (lo <? x) || (incl_left incl && (x =? lo)) in
  let before_hi := (x <? hi) || (incl_right incl && (x =? hi)) in
  if lo <=? hi then after_lo && before_hi else after_lo || before_hi.

Definition lookup_row (ncols : nat) (rs : list row) (t : Z) : list (option cell) :=
  match find (fun r => fst r =? t) rs with
  | Some r => snd r
  | None => repeat None ncols
  end.

Fixpoint has_dup (l : list Z) : bool :=
  match l with
  | [] => false
  | x :: r => existsb (Z.eqb x) r || has_dup r
  end.

(** Modelled from the spec: [dataframe_transforms.reindex_timeseries_df]
    (not in the sources).  "build the full candidate timestamp grid at [freq]
    spacing over [start,end] (applying boundary inclusivity), intersect with
    the [between_time] intraday filter if given, intersect with valid market
    days if requested, then reindex the observed table onto this exact grid:
    timestamps present in the grid but absent from input become fully null
    rows; timestamps present in input but absent from the final grid are
    dropped"; [start]/[end] default to the first/last timestamp of the
    input; duplicated input timestamps are rejected. *)
Definition reindex_timeseries_df (df : DataFrame) (freq : Z) (start end_ : option Z)
    (between_time : option (Z * Z)) (between_time_inclusive : inclusive)
    (respect_valid_market_days : bool) (start_end_inclusive : inclusive) : result DataFrame :=
  if freq <=? 0 then Err ValueError
  else if has_dup (index df) then Err ValueError
  else
  s <- match start with
       | Some s => Ok s
       | None => match df.(rows) with [] => Err IndexError | r :: _ => Ok (fst r) end
       end ;;
  e <- match end_ with
       | Some e => Ok e
       | None => match df.(rows) with [] => Err IndexError | r :: _ => Ok (fst (last df.(rows) r)) end
       end ;;
  let grid := date_range s e freq start_end_inclusive in
  let grid := match between_time with
              | None => grid
              | Some (lo, hi) => filter (in_between_time lo hi between_time_inclusive) grid
              end in
  grid <- (if respect_valid_market_days then
             days <- get_market_days (mkTs s df.(tz)) (mkTs e df.(tz)) ;;
             Ok (filter (fun t => existsb (fun d => day_of t =? day_of d.(ts)) days) grid)
           else Ok grid) ;;
  Ok (mkDF df.(tz) df.(columns)
        (map (fun t => (t, lookup_row (length df.(columns)) df.(rows) t)) grid)).

(* ------------------------------------------------------------------ *)
(** ** Cleaning *)

(** [pd.concat([before, after], axis=0)]: both parts carry the same column
    list (see [fill_ohlcv_columns]). *)
Definition concat_rows (a b : DataFrame) : DataFrame := mkDF a.(tz) a.(columns) (a.(rows) ++ b.(rows)).

(** [df.loc[:t]] and [df.loc[t:]] on the sorted index produced by the
    reindexer. *)
Definition loc_upto (t : Z) (df : DataFrame) : DataFrame :=
  mkDF df.(tz) df.(columns) (filter (fun r => fst r <=? t) df.(rows)).
Definition loc_from (t : Z) (df : DataFrame) : DataFrame :=
  mkDF df.(tz) df.(columns) (filter (fun r => t <=? fst r) df.(rows)).

(** [.iloc[:-1]] *)
Definition drop_last_row (df : DataFrame) : DataFrame := mkDF df.(tz) df.(columns) (removelast df.(rows)).

(** The cell of column [c] in a row (first column of that name). *)
Definition row_get (cols : list string) (cells : list (option cell)) (c : string) : option cell :=
  match col_pos c cols with Some k => nth k cells None | None => None end.

(** The leading-gap threshold of [clean_ohlcv]: ['default'] ([None]) is one
    day for daily or longer timeframes and 60 minutes otherwise. *)
Definition bfill_threshold (timeframe : Z) (bfill_data_start_threshold : option Z) : Z :=
  match bfill_data_start_threshold with
  | Some t => t
  | None => if DAILY <=? timeframe then DAILY else HOUR_1
  end.

(** Two rows with the same timestamp and the same cells outside the columns
    [S] (read through the column list [cols]). *)
Definition same_outside (S cols : list string) (x y : row) : Prop :=
  fst x = fst y /\ forall c, ~ In c S -> row_get cols (snd x) c = row_get cols (snd y) c.

(** [clean_ohlcv]; [bfill_data_start_threshold = None] is ['default']. *)
Definition clean_ohlcv (df : DataFrame) (timeframe : Z) (start end_ : option Z)
    (between_time : option (Z * Z)) (between_time_inclusive : inclusive)
    (respect_valid_market_days : bool) (bfill_data_start_threshold : option Z)
    (copy_constant_cols : list string) : result DataFrame :=
  df <- reindex_timeseries_df df timeframe start end_ between_time between_time_inclusive
          respect_valid_market_days Both ;;
  if no_nulls df then Ok df
  else
  first_observed_ts <- get_first_nonnull_ts df ;;
  df <- foldM (fun d c => if has_col d c then copy_constant_col_to_all_rows d c else Ok d)
          copy_constant_cols df ;;
  let threshold := bfill_threshold timeframe bfill_data_start_threshold in
  match df.(rows) with
  | [] => Err IndexError
  | r0 :: _ =>
      if first_observed_ts - fst r0 <=? threshold then fill_ohlcv df
      else
        let before_df := drop_last_row (loc_upto first_observed_ts df) in
        let after_df := loc_from first_observed_ts df in
        after_df <- fill_ohlcv after_df ;;
        let df := concat_rows before_df after_df in
        if no_nulls (loc_from first_observed_ts df) then Ok df else Err AssertionError
  end.

(* ------------------------------------------------------------------ *)
(** ** Fixtures and auxiliary predicates *)

Definition starts_before (a b : OHLCVAgg) : Prop := a.(start_ts) < b.(start_ts).

Definition m1_bar (i : Z) (v t : Q) : OHLCVAgg :=
  mkAgg (mkSpec "AAPL" MIN_1 0) (i * MIN_1) ((i + 1) * MIN_1) 10 11 9 10 v 10 t (t / v).

Definition m1_window : list OHLCVAgg :=
  [m1_bar 0 100 50; m1_bar 1 400 40; m1_bar 2 100 50; m1_bar 3 100 50; m1_bar 4 100 50].

Definition m5_pair : list OHLCVAgg := [m1_bar 0 100 50; m1_bar 5 100 50].

Definition independence_day_2025 : Z := days_from_civil 2025 7 4.

Definition grid (t0 freq : Z) (n : nat) : list Z :=
  map (fun k => t0 + Z.of_nat k * freq) (seq 0 (S n)).

Definition saturday_0930 : Z := days_from_civil 2024 3 23 * DAILY + 570 * MIN_1.

Definition saturday_df : DataFrame :=
  mkDF (Some "America/New_York"%string) ["close"%string]
    [(saturday_0930, [Some (CNum 1)]); (saturday_0930 + MIN_5, [Some (CNum 2)])].

Definition wednesday_df : DataFrame :=
  mkDF (Some "America/New_York"%string) ["close"%string]
    [(saturday_0930 - 3 * DAILY, [Some (CNum 1)]); (saturday_0930 - 3 * DAILY + MIN_5, [Some (CNum 2)])].

Definition somes (s : list (option cell)) : Prop := Forall (fun o => o <> None) s.

Definition complete_rows (cols : list string) (rest : list row) : Prop :=
  Forall (fun r => length (snd r) = length cols /\ all_nonnull (snd r) = true) rest.

Definition fill_cols : list string :=
  ["volume"; "vwap"; "transactions"; "close"; "open"; "high"; "low"; "avg_size"; "ticker"]%string.

Definition t0930 : Z := days_from_civil 2024 3 20 * DAILY + 810 * MIN_1.

Definition fixture_row (i : Z) (vol vw tr cl op hi lo : Q) (tk : string) : row :=
  (t0930 + i * MIN_5,
   [Some (CNum vol); Some (CNum vw); Some (CNum tr); Some (CNum cl); Some (CNum op);
    Some (CNum hi); Some (CNum lo); Some (CNum 20); Some (CStr tk)]).

Definition null_row : row := (t0930, repeat None 9).

(** Two fully populated bars of one ticker. *)
Definition complete_df : DataFrame :=
  mkDF (Some "America/New_York"%string) fill_cols
    [fixture_row 1 1000 (15050 # 100) 50 (15055 # 100) (15040 # 100) (15060 # 100) (15035 # 100) "AAPL";
     fixture_row 2 800 (15040 # 100) 40 (15035 # 100) (15045 # 100) (15050 # 100) (15030 # 100) "AAPL"].

(** Every row has one cell per column. *)
Definition rows_wf (d : DataFrame) : Prop :=
  Forall (fun r => length (snd r) = length d.(columns)) d.(rows).

(** Every row's cell in column [c] satisfies [P]. *)
Definition col_all (P : option cell -> Prop) (d : DataFrame) (c : string) : Prop :=
  forall r, In r d.(rows) -> P (row_get d.(columns) (snd r) c).

(** The fixture of the test suite with its first row nulled. *)
Definition first_row_nulled (tk2 : string) : DataFrame :=
  mkDF (Some "America/New_York"%string) fill_cols
    [null_row;
     fixture_row 1 1500 (15050 # 100) 75 (15055 # 100) (15045 # 100) (15060 # 100) (15040 # 100) "AAPL";
     fixture_row 2 800 (15040 # 100) 40 (15035 # 100) (15045 # 100) (15050 # 100) (15030 # 100) "AAPL";
     fixture_row 3 2000 (15075 # 100) 100 (15080 # 100) (15070 # 100) (15085 # 100) (15065 # 100) tk2;
     fixture_row 4 1200 (15060 # 100) 60 (15065 # 100) (15055 # 100) (15070 # 100) (15050 # 100) tk2].

(** Same zone, columns and index as [d0]. *)
Definition same_shape (d0 d : DataFrame) : Prop :=
  tz d = tz d0 /\ columns d = columns d0 /\ index d = index d0.

(** Two populated bars 75 and 80 minutes after the requested start. *)
Definition late_df : DataFrame :=
  mkDF (Some "America/New_York"%string) fill_cols
    [fixture_row 15 1500 (15050 # 100) 75 (15055 # 100) (15045 # 100) (15060 # 100) (15040 # 100) "AAPL";
     fixture_row 16 800 (15040 # 100) 40 (15035 # 100) (15045 # 100) (15050 # 100) (15030 # 100) "AAPL"].

Definition late_grid : DataFrame :=
  match reindex_timeseries_df late_df MIN_5 (Some t0930) None None Both false Both with
  | Ok r => r
  | Err _ => late_df
  end.

Definition late_out : DataFrame :=
  match clean_ohlcv late_df MIN_5 (Some t0930) None None Both false None ["ticker"; "table"]%string with
  | Ok r => r
  | Err _ => late_df
  end.

(** * Properties *)

(* ------------------------------------------------------------------ *)
(** ** OHLCVAggSpec validation *)

(** The modulo test compares a timedelta with the int [0], which is always
    "not equal": every positive offset is refused by it. *)
Lemma positive_offset_always_rejected (tk : string) (tf off : Z) :
  0 < off -> make_spec tk tf off = Err (if existsb (Z.eqb tf) [MIN_1; MIN_5] then ValueError
                                         else NotImplementedError).
Proof.
  intros Hpos. unfold make_spec, validate_ohlcvaggspec; cbn [timeframe offset].
  destruct (existsb (Z.eqb tf) [MIN_1; MIN_5]); cbn [negb]; [|reflexivity].
  replace (off <? 0) with false by (symmetry; apply Z.ltb_ge; lia).
  replace (0 <? off) with true by (symmetry; apply Z.ltb_lt; lia).
  reflexivity.
Qed.

(** C2: a BarSpec with a non-zero offset is rejected unless the offset is a
    whole number of minutes, strictly below the timeframe and at most one
    hour; in particular an offset equal to the timeframe is rejected. *)
Theorem spec_offset_out_of_bounds_rejected (tk : string) (tf off : Z) :
  off <> 0 ->
  ~ (off mod MIN_1 = 0 /\ off < tf /\ off <= HOUR_1) ->
  is_err (make_spec tk tf off) = true.
Proof.
  intros Hnz _.
  destruct (Z.lt_trichotomy off 0) as [Hneg | [Hz | Hpos]].
  - unfold make_spec, validate_ohlcvaggspec; cbn [timeframe offset].
    destruct (existsb (Z.eqb tf) [MIN_1; MIN_5]); cbn [negb]; [|reflexivity].
    replace (off <? 0) with true by (symmetry; apply Z.ltb_lt; lia). reflexivity.
  - contradiction.
  - rewrite (positive_offset_always_rejected tk tf off Hpos).
    destruct (existsb (Z.eqb tf) [MIN_1; MIN_5]); reflexivity.
Qed.

Lemma spec_offset_out_of_bounds_rejected_witness :
  MIN_1 <> 0 /\ ~ (MIN_1 mod MIN_1 = 0 /\ MIN_1 < MIN_1 /\ MIN_1 <= HOUR_1) /\
  is_err (make_spec "AAPL" MIN_1 MIN_1) = true.
Proof.
  split; [unfold MIN_1, MICROS_PER_MINUTE; lia|].
  split; [intros [_ [H _]]; lia|].
  apply spec_offset_out_of_bounds_rejected;
    [unfold MIN_1, MICROS_PER_MINUTE; lia | intros [_ [H _]]; lia].
Defined.

(* ------------------------------------------------------------------ *)
(** ** Bar invariants *)

(** C3 (as stated): the tolerance test is not purely relative; numpy's
    absolute tolerance lets [transactions / volume = 1e-9] pass against
    [avg_size = 0]. *)
Lemma bar_relative_tolerance_counterexample :
  let x := mkAgg (mkSpec "AAPL" MIN_1 0) 0 MIN_1 1 1 1 1 1000000000 1 1 0 in
  ~ (x.(volume) == 0)%Q /\
  ~ (Qabs (x.(transactions) / x.(volume) - x.(avg_size)) <= (1 # 100) * Qabs x.(avg_size))%Q /\
  construct_ohlcvagg x = Ok x.
Proof.
  cbv zeta. split; [|split].
  - intro H. apply Qeq_bool_iff in H. vm_compute in H. discriminate H.
  - intro H. apply Qle_bool_iff in H. vm_compute in H. discriminate H.
  - vm_compute. reflexivity.
Qed.

(** C3 (amended): a bar with [volume == 0] is refused when [transactions]
    or [avg_size] is non-zero; a bar with [volume != 0] is refused when
    [|transactions / volume - avg_size| > 1e-8 + 0.01 * |avg_size|]
    (numpy.isclose, rtol 0.01, default atol 1e-8); a successful
    construction returns the bar as given. *)
Theorem bar_invariants_enforced (x : OHLCVAgg) :
  ((x.(volume) == 0)%Q -> (~ x.(transactions) == 0 \/ ~ x.(avg_size) == 0)%Q ->
     is_err (construct_ohlcvagg x) = true) /\
  (~ (x.(volume) == 0)%Q ->
     ~ (Qabs (x.(transactions) / x.(volume) - x.(avg_size))
          <= (1 # 100000000) + (1 # 100) * Qabs x.(avg_size))%Q ->
     is_err (construct_ohlcvagg x) = true) /\
  (forall y, construct_ohlcvagg x = Ok y -> y = x).
Proof.
  unfold construct_ohlcvagg.
  destruct (validate_ohlcvaggspec (spec x)) as [[]|e]; cbn [bind];
    [|split; [|split]; [reflexivity | reflexivity | discriminate]].
  unfold validate_ohlcvagg.
  destruct (negb (end_ts x - start_ts x =? timeframe (spec x))); cbn [bind];
    [split; [|split]; [reflexivity | reflexivity | discriminate]|].
  split; [|split].
  - intros Hv Hta. apply Qeq_bool_iff in Hv. rewrite Hv.
    destruct Hta as [Ht | Ha].
    + destruct (Qeq_bool (transactions x) 0) eqn:E;
        [apply Qeq_bool_iff in E; contradiction | reflexivity].
    + destruct (negb (Qeq_bool (transactions x) 0)); [reflexivity|].
      destruct (Qeq_bool (avg_size x) 0) eqn:E;
        [apply Qeq_bool_iff in E; contradiction | reflexivity].
  - intros Hv Hc.
    destruct (Qeq_bool (volume x) 0) eqn:E; [apply Qeq_bool_iff in E; contradiction|].
    unfold np_isclose, np_default_atol.
    destruct (Qle_bool _ _) eqn:E2; [apply Qle_bool_iff in E2; contradiction | reflexivity].
  - intros y Hy.
    destruct (Qeq_bool (volume x) 0);
      [destruct (negb (Qeq_bool (transactions x) 0)); [discriminate|];
       destruct (negb (Qeq_bool (avg_size x) 0)); [discriminate|]
      | destruct (negb (np_isclose _ _ _)); [discriminate|]];
      cbn [bind] in Hy; injection Hy; auto.
Qed.

Lemma bar_invariants_enforced_witness :
  let x := mkAgg (mkSpec "AAPL" MIN_1 0) 0 MIN_1 1 1 1 1 0 1 3 0 in
  (x.(volume) == 0)%Q /\ (~ x.(transactions) == 0 \/ ~ x.(avg_size) == 0)%Q /\
  is_err (construct_ohlcvagg x) = true.
Proof.
  cbv zeta.
  assert (Hv : (volume (mkAgg (mkSpec "AAPL" MIN_1 0) 0 MIN_1 1 1 1 1 0 1 3 0) == 0)%Q)
    by reflexivity.
  assert (Ht : (~ transactions (mkAgg (mkSpec "AAPL" MIN_1 0) 0 MIN_1 1 1 1 1 0 1 3 0) == 0
                \/ ~ avg_size (mkAgg (mkSpec "AAPL" MIN_1 0) 0 MIN_1 1 1 1 1 0 1 3 0) == 0)%Q)
    by (left; intro H; apply Qeq_bool_iff in H; vm_compute in H; discriminate H).
  split; [exact Hv|]. split; [exact Ht|].
  exact (proj1 (bar_invariants_enforced _) Hv Ht).
Defined.

(* ------------------------------------------------------------------ *)
(** ** Identity *)

(** C4: BarSpec equality and hash depend on (ticker, timeframe) only, so
    specs differing in offset are equal; bar equality and hash depend on
    (ticker, timeframe, start_ts) only, whatever the other fields. *)
Theorem identity_by_key_fields (h2 : string * Z -> Z) (h3 : string * Z * Z -> Z) :
  (forall a b : OHLCVAggSpec,
     a.(ticker) = b.(ticker) -> a.(timeframe) = b.(timeframe) ->
     spec_eq h2 a b = true /\ spec_hash h2 a = spec_hash h2 b) /\
  (forall x y : OHLCVAgg,
     x.(spec).(ticker) = y.(spec).(ticker) -> x.(spec).(timeframe) = y.(spec).(timeframe) ->
     x.(start_ts) = y.(start_ts) ->
     agg_eq h3 x y = true /\ agg_hash h3 x = agg_hash h3 y).
Proof.
  split.
  - intros a b Ht Hf. unfold spec_eq, spec_hash. rewrite Ht, Hf. split; [apply Z.eqb_refl | reflexivity].
  - intros x y Ht Hf Hs. unfold agg_eq, agg_hash. rewrite Ht, Hf, Hs.
    split; [apply Z.eqb_refl | reflexivity].
Qed.

Lemma identity_by_key_fields_witness :
  let h2 := fun k : string * Z => snd k in
  let a := mkSpec "AAPL" MIN_5 0 in
  let b := mkSpec "AAPL" MIN_5 MIN_1 in
  a.(ticker) = b.(ticker) /\ a.(timeframe) = b.(timeframe) /\ spec_eq h2 a b = true.
Proof.
  cbv zeta. split; [reflexivity|]. split; [reflexivity|].
  exact (proj1 (proj1 (identity_by_key_fields (fun k => snd k) (fun k => snd k))
                  (mkSpec "AAPL" MIN_5 0) (mkSpec "AAPL" MIN_5 MIN_1) eq_refl eq_refl)).
Defined.

(* ------------------------------------------------------------------ *)
(** ** OHLCVAgg.create with zero volume *)

(** C10: with [volume == 0], [transactions] given and [avg_size] omitted,
    [create] raises [ZeroDivisionError], even for [transactions = 0] where
    the zero-activity bar passes every invariant; any successful zero-volume
    [create] had [avg_size] supplied. *)
Theorem create_zero_volume_needs_avg_size (tk : string) (tf st : Z) (o h l c v vw : Q)
    (e : option Z) (t : Q) :
  (v == 0)%Q ->
  create tk tf st o h l c v vw e (Some t) None = Err ZeroDivisionError /\
  (forall tr av b, create tk tf st o h l c v vw e tr av = Ok b -> av <> None) /\
  ((tf = MIN_1 \/ tf = MIN_5) -> e = None ->
     construct_ohlcvagg (mkAgg (mkSpec tk tf 0) st (st + tf) o h l c v vw 0 0)
       = Ok (mkAgg (mkSpec tk tf 0) st (st + tf) o h l c v vw 0 0)).
Proof.
  intros Hv. apply Qeq_bool_iff in Hv.
  split; [|split].
  - unfold create. rewrite Hv. reflexivity.
  - intros tr av b Hc Hav. subst av. unfold create in Hc.
    destruct tr as [t'|]; [rewrite Hv in Hc|]; discriminate Hc.
  - intros Htf _. unfold construct_ohlcvagg, validate_ohlcvaggspec, validate_ohlcvagg.
    cbn [spec timeframe offset start_ts end_ts volume transactions avg_size].
    replace (existsb (Z.eqb tf) [MIN_1; MIN_5]) with true
      by (destruct Htf; subst; reflexivity).
    cbn [negb bind]. rewrite Z.ltb_irrefl. cbn [negb].
    replace (st + tf - st =? tf) with true by (symmetry; apply Z.eqb_eq; lia).
    cbn [negb]. rewrite Hv. reflexivity.
Qed.

Lemma create_zero_volume_needs_avg_size_witness :
  (0 == 0)%Q /\ create "AAPL" MIN_1 0 1 1 1 1 0 1 None (Some 0%Q) None = Err ZeroDivisionError.
Proof.
  split; [reflexivity|].
  exact (proj1 (create_zero_volume_needs_avg_size "AAPL" MIN_1 0 1 1 1 1 0 1 None 0 (Qeq_refl 0))).
Defined.

(* ------------------------------------------------------------------ *)
(** ** Market calendar: timezone checks *)

(** C8: [get_market_days] raises the invalid-input error when either
    boundary is naive or when their zones differ. *)
Theorem get_market_days_rejects_bad_tz (s e : Timestamp) :
  s.(ts_tz) = None \/ e.(ts_tz) = None \/ s.(ts_tz) <> e.(ts_tz) ->
  get_market_days s e = Err ValueError.
Proof.
  intros H. unfold get_market_days.
  destruct (ts_tz s) as [a|], (ts_tz e) as [b|]; try reflexivity.
  destruct (String.eqb a b) eqn:E; [|reflexivity].
  apply String.eqb_eq in E. subst b.
  destruct H as [H | [H | H]]; [discriminate | discriminate | contradiction].
Qed.

Lemma get_market_days_rejects_bad_tz_witness :
  let s := mkTs 0 (Some "UTC"%string) in
  let e := mkTs DAILY (Some "US/Eastern"%string) in
  (s.(ts_tz) = None \/ e.(ts_tz) = None \/ s.(ts_tz) <> e.(ts_tz)) /\
  get_market_days s e = Err ValueError.
Proof.
  cbv zeta.
  assert (H : (ts_tz (mkTs 0 (Some "UTC"%string)) = None \/
               ts_tz (mkTs DAILY (Some "US/Eastern"%string)) = None \/
               ts_tz (mkTs 0 (Some "UTC"%string)) <> ts_tz (mkTs DAILY (Some "US/Eastern"%string))))
    by (right; right; discriminate).
  split; [exact H|]. exact (get_market_days_rejects_bad_tz _ _ H).
Defined.

(* ------------------------------------------------------------------ *)
(** ** Aggregation of sub-bars *)

Lemma insert_by_start_least (b : OHLCVAgg) (l : list OHLCVAgg) :
  Forall (starts_before b) l -> insert_by_start b l = b :: l.
Proof.
  intros H. destruct l as [|x r]; [reflexivity|].
  cbn [insert_by_start]. inversion H as [|? ? Hx _]; subst.
  unfold starts_before in Hx. replace (start_ts x <? start_ts b) with false
    by (symmetry; apply Z.ltb_ge; lia). reflexivity.
Qed.

Lemma sort_index_sorted (l : list OHLCVAgg) :
  StronglySorted starts_before l -> sort_index l = l.
Proof.
  induction 1 as [|a l Hs IH Hf]; [reflexivity|].
  cbn [sort_index]. rewrite IH. apply insert_by_start_least, Hf.
Qed.

Lemma fold_Qmax_spec (f : OHLCVAgg -> Q) (l : list OHLCVAgg) (m0 : Q) :
  let r := fold_left (fun m b => Qmax m (f b)) l m0 in
  (m0 <= r)%Q /\ (forall b, In b l -> (f b <= r)%Q) /\ (r = m0 \/ exists b, In b l /\ r = f b).
Proof.
  revert m0. induction l as [|a l IH]; intros m0; cbn zeta.
  - cbn [fold_left]. split; [apply Qle_refl|]. split; [intros b []|]. left; reflexivity.
  - cbn [fold_left]. destruct (IH (Qmax m0 (f a))) as [H1 [H2 H3]].
    split; [|split].
    + eapply Qle_trans; [apply Q.le_max_l | exact H1].
    + intros b [<- | Hb]; [eapply Qle_trans; [apply Q.le_max_r | exact H1] | auto].
    + destruct H3 as [-> | [b [Hb ->]]]; [|right; exists b; split; [apply in_cons|]; auto].
      unfold Qmax, GenericMinMax.gmax. destruct (Qcompare m0 (f a)); [left | right; exists a | left];
        try split; auto using in_eq.
Qed.

Lemma fold_Qmin_spec (f : OHLCVAgg -> Q) (l : list OHLCVAgg) (m0 : Q) :
  let r := fold_left (fun m b => Qmin m (f b)) l m0 in
  (r <= m0)%Q /\ (forall b, In b l -> (r <= f b)%Q) /\ (r = m0 \/ exists b, In b l /\ r = f b).
Proof.
  revert m0. induction l as [|a l IH]; intros m0; cbn zeta.
  - cbn [fold_left]. split; [apply Qle_refl|]. split; [intros b []|]. left; reflexivity.
  - cbn [fold_left]. destruct (IH (Qmin m0 (f a))) as [H1 [H2 H3]].
    split; [|split].
    + eapply Qle_trans; [exact H1 | apply Q.le_min_l].
    + intros b [<- | Hb]; [eapply Qle_trans; [exact H1 | apply Q.le_min_r] | auto].
    + destruct H3 as [-> | [b [Hb ->]]]; [|right; exists b; split; [apply in_cons|]; auto].
      unfold Qmin, GenericMinMax.gmin. destruct (Qcompare m0 (f a)); [left | left | right; exists a];
        try split; auto using in_eq.
Qed.

Lemma Qmax_same (q : Q) : Qmax q q = q.
Proof. unfold Qmax, GenericMinMax.gmax. destruct (Qcompare q q); reflexivity. Qed.

Lemma Qmin_same (q : Q) : Qmin q q = q.
Proof. unfold Qmin, GenericMinMax.gmin. destruct (Qcompare q q); reflexivity. Qed.

(** C1 (as stated): five valid, ordered, gapless 1-minute bars covering
    exactly one 5-minute window are not aggregated: the result's [end_ts] is
    the last bar's start, so [end_ts - start_ts] is 4 minutes; and the mean
    of the per-bar [avg_size] is not within tolerance of the summed
    [transactions / volume] either. *)
Lemma create_from_aggs_window_counterexample :
  Forall (fun b => construct_ohlcvagg b = Ok b) m1_window /\
  map end_ts (removelast m1_window) = map start_ts (tl m1_window) /\
  (last m1_window (m1_bar 0 1 1)).(end_ts) - (hd (m1_bar 0 1 1) m1_window).(start_ts) = MIN_5 /\
  np_isclose (col_sum transactions m1_window / col_sum volume m1_window)
             (col_mean avg_size m1_window) (1 # 100) = false /\
  create_from_aggs (mkSpec "AAPL" MIN_5 0) m1_window = Err ValueError.
Proof.
  split; [repeat constructor; vm_compute; reflexivity|].
  split; [vm_compute; reflexivity|].
  split; [vm_compute; reflexivity|].
  split; vm_compute; reflexivity.
Qed.

(** C1 (amended): for bars in strictly increasing [start_ts] order, a bar
    returned by [create_from_aggs] has the spec's ticker, timeframe and
    offset, starts at the first bar's start, takes [open] from the first
    bar and [close] from the last one, [high]/[low] are the maximum/minimum
    over all bars, [volume], [transactions] and [vwap] are sums and
    [avg_size] is the mean of the per-bar values; it passes the Bar
    validators (so [end_ts - start_ts] is the timeframe and the mean
    [avg_size] is within tolerance of the summed ratio). *)
Theorem create_from_aggs_result (sp : OHLCVAggSpec) (b0 : OHLCVAgg) (rest : list OHLCVAgg)
    (x : OHLCVAgg) :
  StronglySorted starts_before (b0 :: rest) ->
  create_from_aggs sp (b0 :: rest) = Ok x ->
  x.(spec) = sp /\ x.(start_ts) = b0.(start_ts) /\
  x.(open) = b0.(open) /\ x.(close) = (last rest b0).(close) /\
  (forall b, In b (b0 :: rest) -> (b.(high) <= x.(high))%Q) /\
  (exists b, In b (b0 :: rest) /\ b.(high) = x.(high)) /\
  (forall b, In b (b0 :: rest) -> (x.(low) <= b.(low))%Q) /\
  (exists b, In b (b0 :: rest) /\ b.(low) = x.(low)) /\
  x.(volume) = col_sum volume (b0 :: rest) /\
  x.(transactions) = col_sum transactions (b0 :: rest) /\
  x.(vwap) = col_sum vwap (b0 :: rest) /\
  x.(avg_size) = col_mean avg_size (b0 :: rest) /\
  validate_ohlcvaggspec x.(spec) = Ok tt /\ validate_ohlcvagg x = Ok tt.
Proof.
  intros Hs Hc. unfold create_from_aggs in Hc. rewrite (sort_index_sorted _ Hs) in Hc.
  destruct (1 <? label_count _ _)%nat; [discriminate|].
  destruct (1 <? label_count _ _)%nat; [discriminate|].
  unfold construct_ohlcvagg in Hc.
  destruct (validate_ohlcvaggspec _) as [[]|] eqn:E1; cbn [bind] in Hc; [|discriminate].
  destruct (validate_ohlcvagg _) as [[]|] eqn:E2; cbn [bind] in Hc; [|discriminate].
  injection Hc as <-. cbn [spec start_ts open close high low volume transactions vwap avg_size].
  destruct (fold_Qmax_spec high rest (high b0)) as [Hh1 [Hh2 Hh3]].
  destruct (fold_Qmin_spec low rest (low b0)) as [Hl1 [Hl2 Hl3]].
  unfold col_max, col_min. cbn [fold_left]. rewrite Qmax_same, Qmin_same.
  split; [destruct sp; reflexivity|].
  split; [reflexivity|]. split; [reflexivity|].
  split; [destruct rest; reflexivity|].
  split; [intros b [<- | Hb]; auto|].
  split; [destruct Hh3 as [-> | [b [Hb ->]]]; [exists b0 | exists b]; auto using in_eq, in_cons|].
  split; [intros b [<- | Hb]; auto|].
  split; [destruct Hl3 as [-> | [b [Hb ->]]]; [exists b0 | exists b]; auto using in_eq, in_cons|].
  split; [reflexivity|]. split; [reflexivity|]. split; [reflexivity|]. split; [reflexivity|].
  split; [exact E1 | exact E2].
Qed.

Lemma create_from_aggs_result_witness :
  exists x, StronglySorted starts_before m5_pair /\
    create_from_aggs (mkSpec "AAPL" MIN_5 0) m5_pair = Ok x /\
    x.(open) = (m1_bar 0 100 50).(open).
Proof.
  eexists. assert (Hs : StronglySorted starts_before m5_pair).
  { repeat constructor; unfold starts_before; vm_compute; reflexivity. }
  assert (Hc : create_from_aggs (mkSpec "AAPL" MIN_5 0) m5_pair
               = Ok (mkAgg (mkSpec "AAPL" MIN_5 0) 0 MIN_5 10 11 9 10 200 20 100 (10000 # 20000))).
  { vm_compute. reflexivity. }
  split; [exact Hs|]. split; [exact Hc|].
  exact (proj1 (proj2 (proj2 (create_from_aggs_result _ _ [m1_bar 5 100 50] _ Hs Hc)))).
Defined.

(* ------------------------------------------------------------------ *)
(** ** Market calendar: membership *)

Lemma DAILY_pos : 0 < DAILY.
Proof. unfold DAILY, MICROS_PER_MINUTE. lia. Qed.

Lemma day_of_midnight (d : Z) : day_of (d * DAILY) = d.
Proof. unfold day_of. apply Z.div_mul. pose proof DAILY_pos. lia. Qed.

Lemma in_day_range (a b d : Z) : In d (day_range a b) <-> a <= d <= b.
Proof.
  unfold day_range. rewrite in_map_iff. split.
  - intros [k [<- Hk]]. apply in_seq in Hk. lia.
  - intros H. exists (Z.to_nat (d - a)). split; [lia|]. apply in_seq. lia.
Qed.

(** C7: for two boundaries in the same zone, [get_market_days] returns
    exactly the midnights of the days between the boundaries' dates
    (inclusive) that are neither a Saturday/Sunday nor one of the nine
    (observed) market holidays; a single-day range on a holiday is empty. *)
Theorem get_market_days_members (s e : Timestamp) (z : string) :
  s.(ts_tz) = Some z -> e.(ts_tz) = Some z ->
  exists days, get_market_days s e = Ok days /\
    (forall t, In t days <->
       exists d, t = mkTs (d * DAILY) (Some z) /\ day_of s.(ts) <= d <= day_of e.(ts) /\
                 is_weekend d = false /\ is_holiday d = false) /\
    (forall d, is_holiday d = true ->
       get_market_days (mkTs (d * DAILY) (Some z)) (mkTs (d * DAILY) (Some z)) = Ok []).
Proof.
  intros Hs He. unfold get_market_days at 1. rewrite Hs, He, String.eqb_refl. cbn [negb].
  eexists. split; [reflexivity|]. split.
  - intros t. rewrite in_map_iff. split.
    + intros [d [<- Hd]]. apply filter_In in Hd as [Hr Hm].
      apply in_day_range in Hr. unfold is_market_day in Hm.
      apply andb_true_iff in Hm as [Hw Hh]. apply negb_true_iff in Hw, Hh.
      exists d. auto.
    + intros [d [-> [Hr [Hw Hh]]]]. exists d. split; [reflexivity|].
      apply filter_In. split; [apply in_day_range; exact Hr|].
      unfold is_market_day. rewrite Hw, Hh. reflexivity.
  - intros d Hd. unfold get_market_days. cbn [ts_tz ts]. rewrite String.eqb_refl. cbn [negb].
    rewrite day_of_midnight. unfold day_range.
    replace (Z.to_nat (d - d + 1)) with 1%nat by lia. cbn [seq map].
    rewrite Z.add_0_r. cbn [filter]. unfold is_market_day. rewrite Hd, andb_false_r.
    reflexivity.
Qed.

Lemma get_market_days_members_witness :
  is_holiday independence_day_2025 = true /\
  get_market_days (mkTs (independence_day_2025 * DAILY) (Some "UTC"%string))
                  (mkTs (independence_day_2025 * DAILY) (Some "UTC"%string)) = Ok [].
Proof.
  assert (Hh : is_holiday independence_day_2025 = true) by (vm_compute; reflexivity).
  split; [exact Hh|].
  destruct (get_market_days_members (mkTs 0 (Some "UTC"%string)) (mkTs 0 (Some "UTC"%string))
              "UTC"%string eq_refl eq_refl) as [days [_ [_ H]]].
  exact (H _ Hh).
Defined.

(* ------------------------------------------------------------------ *)
(** ** Reindexing a complete grid *)

Lemma grid_sorted (t0 freq : Z) (m len : nat) :
  0 < freq -> StronglySorted Z.lt (map (fun k => t0 + Z.of_nat k * freq) (seq m len)).
Proof.
  intros Hf. revert m. induction len as [|len IH]; intros m; cbn [seq map]; constructor; auto.
  apply Forall_forall. intros x Hx. apply in_map_iff in Hx as [k [<- Hk]].
  apply in_seq in Hk. nia.
Qed.

Lemma has_dup_sorted (l : list Z) : StronglySorted Z.lt l -> has_dup l = false.
Proof.
  induction 1 as [|a l Hs IH Hf]; [reflexivity|].
  cbn [has_dup]. rewrite IH, orb_false_r.
  apply not_true_iff_false. intros Hx. apply existsb_exists in Hx as [y [Hy Heq]].
  apply Z.eqb_eq in Heq. subst y. rewrite Forall_forall in Hf. specialize (Hf a Hy). lia.
Qed.

Lemma filter_keep_all {A : Type} (f : A -> bool) (l : list A) :
  (forall x, In x l -> f x = true) -> filter f l = l.
Proof.
  induction l as [|a l IH]; intros H; [reflexivity|].
  cbn [filter]. rewrite (H a (in_eq _ _)), IH; [reflexivity|]. intros x Hx; apply H, in_cons, Hx.
Qed.

Lemma date_range_grid (t0 freq : Z) (n : nat) :
  0 < freq -> date_range t0 (t0 + Z.of_nat n * freq) freq Both = grid t0 freq n.
Proof.
  intros Hf. unfold date_range, grid.
  replace (t0 + Z.of_nat n * freq <? t0) with false by (symmetry; apply Z.ltb_ge; nia).
  replace ((t0 + Z.of_nat n * freq - t0) / freq) with (Z.of_nat n)
    by (replace (t0 + Z.of_nat n * freq - t0) with (Z.of_nat n * freq) by lia;
        symmetry; apply Z.div_mul; lia).
  rewrite Nat2Z.id. cbn [incl_left incl_right orb andb]. apply filter_true.
Qed.

Lemma reindex_rows_self (ncols : nat) (rs : list row) :
  has_dup (map fst rs) = false ->
  map (fun t => (t, lookup_row ncols rs t)) (map fst rs) = rs.
Proof.
  induction rs as [|r rs IH]; intros Hd; [reflexivity|].
  cbn [map has_dup] in *. apply orb_false_iff in Hd as [Hn Hd].
  unfold lookup_row at 1. cbn [find]. rewrite Z.eqb_refl. destruct r as [t c]. f_equal.
  rewrite <- (IH Hd) at 2. apply map_ext_in. intros x Hx. f_equal.
  unfold lookup_row. cbn [find fst].
  destruct (t =? x) eqn:E; [|reflexivity].
  apply Z.eqb_eq in E. subst x. exfalso.
  apply Bool.not_true_iff_false in Hn. apply Hn, existsb_exists. exists t. split; auto using Z.eqb_refl.
Qed.

Lemma last_grid (t0 freq : Z) (n : nat) (d : Z) : last (grid t0 freq n) d = t0 + Z.of_nat n * freq.
Proof. unfold grid. rewrite seq_S, map_app. apply last_last. Qed.

Lemma last_map_fst (l : list row) (d : row) : fst (last l d) = last (map fst l) (fst d).
Proof.
  induction l as [|a l IH]; [reflexivity|].
  destruct l as [|b l]; [reflexivity|]. exact IH.
Qed.

Lemma in_grid_bounds (t0 freq t : Z) (n : nat) :
  0 < freq -> In t (grid t0 freq n) -> t0 <= t <= t0 + Z.of_nat n * freq.
Proof.
  intros Hf Ht. unfold grid in Ht. apply in_map_iff in Ht as [k [<- Hk]].
  apply in_seq in Hk. nia.
Qed.

(** C9 (as stated): a gapless 5-minute table on Saturday 2024-03-23 is not
    returned unchanged: with the default [respect_valid_market_days=True]
    its rows fall outside the market days and are dropped. *)
Lemma reindex_idempotence_counterexample :
  index saturday_df = grid saturday_0930 MIN_5 1 /\
  reindex_timeseries_df saturday_df MIN_5 None None None Both true Both
    = Ok (mkDF (Some "America/New_York"%string) ["close"%string] []) /\
  reindex_timeseries_df saturday_df MIN_5 None None None Both true Both <> Ok saturday_df.
Proof.
  assert (H : reindex_timeseries_df saturday_df MIN_5 None None None Both true Both
                = Ok (mkDF (Some "America/New_York"%string) ["close"%string] []))
    by (vm_compute; reflexivity).
  split; [vm_compute; reflexivity|]. split; [exact H|].
  rewrite H. discriminate.
Qed.

(** A table whose index is exactly the gapless grid at [freq] from its
    first to its last timestamp is returned unchanged by
    [reindex(table, freq)] with default start/end, provided either
    [respect_valid_market_days] is off, or the index is timezone-aware and
    every timestamp falls on a market day. *)
Lemma reindex_complete_grid_self (df : DataFrame) (freq t0 : Z) (n : nat)
    (respect_valid_market_days : bool) :
  0 < freq ->
  index df = grid t0 freq n ->
  (respect_valid_market_days = false \/
   (df.(tz) <> None /\ forall t, In t (index df) -> is_market_day (day_of t) = true)) ->
  reindex_timeseries_df df freq None None None Both respect_valid_market_days Both = Ok df.
Proof.
  intros Hf Hi Hm.
  assert (Hnd : has_dup (index df) = false) by (rewrite Hi; apply has_dup_sorted, grid_sorted, Hf).
  unfold reindex_timeseries_df.
  replace (freq <=? 0) with false by (symmetry; apply Z.leb_gt; lia).
  rewrite Hnd.
  destruct df as [dtz dcols drows]. unfold index in Hi, Hnd. cbn [rows tz columns] in *.
  destruct drows as [|r rs]; [unfold grid in Hi; discriminate Hi|].
  assert (Hr0 : fst r = t0).
  { unfold grid in Hi. cbn [seq map] in Hi. injection Hi as H0 _. lia. }
  assert (Hlast : fst (last (r :: rs) r) = t0 + Z.of_nat n * freq).
  { rewrite last_map_fst, Hi. apply last_grid. }
  cbn [bind]. rewrite Hr0, Hlast, date_range_grid by exact Hf.
  assert (Hself : mkDF dtz dcols (map (fun t => (t, lookup_row (length dcols) (r :: rs) t))
                                     (grid t0 freq n)) = mkDF dtz dcols (r :: rs)).
  { rewrite <- Hi. f_equal. apply reindex_rows_self, Hnd. }
  destruct respect_valid_market_days; cbn [bind].
  2: { cbn [tz columns rows]. rewrite Hself. reflexivity. }
  destruct Hm as [Hm | [Htz Hmd]]; [discriminate Hm|].
  destruct dtz as [z|]; [|contradiction]. unfold get_market_days.
  cbn [ts_tz ts]. rewrite String.eqb_refl. cbn [negb bind].
  rewrite filter_keep_all; [cbn [tz columns rows]; rewrite Hself; reflexivity|].
  intros t Ht. apply existsb_exists. exists (mkTs (day_of t * DAILY) (Some z)).
  cbn [ts]. rewrite day_of_midnight, Z.eqb_refl. split; [|reflexivity].
  apply (in_map (fun d => mkTs (d * DAILY) (Some z))). apply filter_In. split.
  - apply in_day_range. pose proof (in_grid_bounds _ _ _ _ Hf Ht). pose proof DAILY_pos.
    unfold day_of. split; apply Z.div_le_mono; lia.
  - apply Hmd. unfold index. cbn [rows]. rewrite Hi. exact Ht.
Qed.

(** Invert a successful [bind]. *)
Ltac inv_bind H :=
  match type of H with
  | bind ?m _ = Ok _ =>
      let E := fresh "E" in
      destruct m eqn:E; cbn [bind] in H; [|discriminate H]
  end.

(** Every day [get_market_days] returns is a market day. *)
Lemma get_market_days_in (s e d : Timestamp) (days : list Timestamp) :
  get_market_days s e = Ok days -> In d days -> is_market_day (day_of d.(ts)) = true.
Proof.
  unfold get_market_days. intros H Hd.
  destruct (ts_tz s) as [a|]; [|discriminate H]. destruct (ts_tz e) as [b|]; [|discriminate H].
  destruct (negb (String.eqb a b)); [discriminate H|]. injection H as <-.
  apply in_map_iff in Hd as [x [<- Hx]]. apply filter_In in Hx as [_ Hm].
  cbn [ts]. rewrite day_of_midnight. exact Hm.
Qed.

(** With [respect_valid_market_days=True], every timestamp of the result
    falls on a market day: rows on weekends and holidays are dropped. *)
Lemma reindex_market_days_only (df : DataFrame) (freq : Z) (start end_ : option Z)
    (between_time : option (Z * Z)) (between_time_inclusive start_end_inclusive : inclusive)
    (r : DataFrame) :
  reindex_timeseries_df df freq start end_ between_time between_time_inclusive true
    start_end_inclusive = Ok r ->
  forall t, In t (index r) -> is_weekend (day_of t) = false /\ is_holiday (day_of t) = false.
Proof.
  unfold reindex_timeseries_df. intros H t Ht.
  destruct (freq <=? 0); [discriminate H|]. destruct (has_dup (index df)); [discriminate H|].
  inv_bind H. inv_bind H. inv_bind H. inv_bind E1. injection E1 as <-. injection H as <-.
  unfold index in Ht. cbn [rows] in Ht. rewrite map_map in Ht. cbn [fst] in Ht.
  rewrite map_id in Ht. apply filter_In in Ht as [_ Hex].
  apply existsb_exists in Hex as [d [Hd Heq]]. apply Z.eqb_eq in Heq.
  pose proof (get_market_days_in _ _ _ _ E2 Hd) as Hm. rewrite <- Heq in Hm.
  unfold is_market_day in Hm. apply andb_true_iff in Hm as [Hw Hh].
  apply negb_true_iff in Hw, Hh. split; assumption.
Qed.

(** C9 (amended): a table whose index is exactly the gapless grid at [freq]
    from its first to its last timestamp is returned unchanged by
    [reindex(table, freq)] with default start/end, provided either
    [respect_valid_market_days] is off, or the index is timezone-aware and
    every timestamp falls on a market day.  And under
    [respect_valid_market_days=True], whatever the other arguments, no
    timestamp of the result falls on a weekend or a holiday: such rows are
    dropped. *)
Theorem reindex_complete_grid_unchanged :
  (forall (df : DataFrame) (freq t0 : Z) (n : nat) (respect_valid_market_days : bool),
    0 < freq ->
    index df = grid t0 freq n ->
    (respect_valid_market_days = false \/
     (df.(tz) <> None /\ forall t, In t (index df) -> is_market_day (day_of t) = true)) ->
    reindex_timeseries_df df freq None None None Both respect_valid_market_days Both = Ok df) /\
  (forall (df : DataFrame) (freq : Z) (start end_ : option Z) (between_time : option (Z * Z))
     (between_time_inclusive start_end_inclusive : inclusive) (r : DataFrame),
    reindex_timeseries_df df freq start end_ between_time between_time_inclusive true
      start_end_inclusive = Ok r ->
    forall t, In t (index r) -> is_weekend (day_of t) = false /\ is_holiday (day_of t) = false).
Proof. split; [exact reindex_complete_grid_self | exact reindex_market_days_only]. Qed.

Lemma reindex_complete_grid_unchanged_witness :
  reindex_timeseries_df wednesday_df MIN_5 None None None Both true Both = Ok wednesday_df /\
  is_weekend (day_of (saturday_0930 - 3 * DAILY)) = false /\
  is_holiday (day_of (saturday_0930 - 3 * DAILY)) = false.
Proof.
  split.
  - apply (proj1 reindex_complete_grid_unchanged wednesday_df MIN_5 (saturday_0930 - 3 * DAILY) 1%nat true).
    + unfold MIN_5, MICROS_PER_MINUTE. lia.
    + vm_compute. reflexivity.
    + right. split; [discriminate|].
      intros t Ht. vm_compute in Ht. destruct Ht as [<- | [<- | []]]; vm_compute; reflexivity.
  - apply (proj2 reindex_complete_grid_unchanged wednesday_df MIN_5 None None None Both Both
             wednesday_df).
    + vm_compute. reflexivity.
    + left. reflexivity.
Defined.

(* ------------------------------------------------------------------ *)
(** ** Column updates on a table whose first row is singled out *)


Lemma col_pos_nth (c : string) (cols : list string) (k : nat) :
  col_pos c cols = Some k -> nth_error cols k = Some c.
Proof.
  revert k. induction cols as [|x r IH]; intros k H; [discriminate|].
  cbn [col_pos] in H. destruct (String.eqb x c) eqn:E.
  - injection H as <-. apply String.eqb_eq in E. subst. reflexivity.
  - destruct (col_pos c r) as [j|] eqn:Ej; [|discriminate]. injection H as <-. apply IH; reflexivity.
Qed.

Lemma col_pos_lt (c : string) (cols : list string) (k : nat) :
  col_pos c cols = Some k -> (k < length cols)%nat.
Proof. intros H. apply nth_error_Some. rewrite (col_pos_nth _ _ _ H). discriminate. Qed.

Lemma col_pos_inj (c c' : string) (cols : list string) (k : nat) :
  col_pos c cols = Some k -> col_pos c' cols = Some k -> c = c'.
Proof.
  intros H H'. apply col_pos_nth in H, H'. rewrite H in H'. injection H'. auto.
Qed.

Lemma replace_nth_length {A : Type} (k : nat) (x : A) (l : list A) :
  length (replace_nth k x l) = length l.
Proof.
  revert k. induction l as [|a l IH]; intros [|k]; cbn [replace_nth length]; auto.
Qed.

Lemma nth_replace_same {A : Type} (k : nat) (x d : A) (l : list A) :
  (k < length l)%nat -> nth k (replace_nth k x l) d = x.
Proof.
  revert k. induction l as [|a l IH]; intros [|k] H; cbn in *; try lia; auto.
  apply IH. lia.
Qed.

Lemma nth_replace_other {A : Type} (j k : nat) (x d : A) (l : list A) :
  j <> k -> nth j (replace_nth k x l) d = nth j l d.
Proof.
  revert j k. induction l as [|a l IH]; intros [|j] [|k] H; cbn; auto; try lia.
Qed.

Lemma replace_nth_nth {A : Type} (k : nat) (d : A) (l : list A) :
  replace_nth k (nth k l d) l = l.
Proof.
  revert k. induction l as [|a l IH]; intros [|k]; cbn; auto. f_equal. apply IH.
Qed.

Lemma row_get_replace (cols : list string) (cells : list (option cell)) (c c' : string)
    (k : nat) (v : option cell) :
  col_pos c cols = Some k -> length cells = length cols ->
  row_get cols (replace_nth k v cells) c' = if String.eqb c c' then v else row_get cols cells c'.
Proof.
  intros Hk Hl. unfold row_get. destruct (String.eqb c c') eqn:E.
  - apply String.eqb_eq in E. subst c'. rewrite Hk. apply nth_replace_same.
    rewrite Hl. exact (col_pos_lt _ _ _ Hk).
  - destruct (col_pos c' cols) as [j|] eqn:Ej; [|reflexivity].
    apply nth_replace_other. intros ->.
    apply String.eqb_neq in E. apply E. exact (col_pos_inj _ _ _ _ Hk Ej).
Qed.

Lemma set_cells_same (k : nat) (rs : list row) : set_cells k rs (map (cell_at k) rs) = rs.
Proof.
  induction rs as [|[t c] rs IH]; [reflexivity|].
  cbn [map set_cells fst snd]. unfold cell_at at 1. cbn [snd]. rewrite replace_nth_nth, IH.
  reflexivity.
Qed.

Lemma get_col_shape (z : option string) (cols : list string) (t0 : Z) (c0 : list (option cell))
    (rest : list row) (c : string) (k : nat) :
  col_pos c cols = Some k ->
  get_col (mkDF z cols ((t0, c0) :: rest)) c = Ok (nth k c0 None :: map (cell_at k) rest).
Proof. intros Hk. unfold get_col. cbn [columns rows]. rewrite Hk. reflexivity. Qed.

Lemma set_col_shape (z : option string) (cols : list string) (t0 : Z) (c0 : list (option cell))
    (rest : list row) (c : string) (k : nat) (v : option cell) :
  col_pos c cols = Some k ->
  set_col (mkDF z cols ((t0, c0) :: rest)) c (v :: map (cell_at k) rest)
  = mkDF z cols ((t0, replace_nth k v c0) :: rest).
Proof.
  intros Hk. unfold set_col. cbn [columns rows tz]. rewrite Hk. cbn [set_cells fst snd].
  rewrite set_cells_same. reflexivity.
Qed.

Lemma rest_col_somes (cols : list string) (rest : list row) (k : nat) :
  complete_rows cols rest -> (k < length cols)%nat -> somes (map (cell_at k) rest).
Proof.
  intros H Hk. unfold somes. rewrite Forall_map. eapply Forall_impl; [|exact H].
  intros [t c] [Hl Ha]. cbn [snd] in *. unfold cell_at. cbn [snd].
  unfold all_nonnull in Ha. rewrite forallb_forall in Ha.
  assert (Hin : In (nth k c None) c) by (apply nth_In; lia).
  specialize (Ha _ Hin). destruct (nth k c None); [discriminate | discriminate Ha].
Qed.

Lemma fillna_value_somes (x : cell) (s : list (option cell)) : somes s -> fillna_value x s = s.
Proof.
  induction 1 as [|o s Ho Hs IH]; [reflexivity|].
  cbn [fillna_value map]. destruct o; [|contradiction]. unfold fillna_value in IH. rewrite IH.
  reflexivity.
Qed.

Lemma ffill_from_somes (p : option cell) (s : list (option cell)) : somes s -> ffill_from p s = s.
Proof.
  intros H. revert p. induction H as [|o s Ho Hs IH]; intros p; [reflexivity|].
  destruct o as [x|]; [|contradiction]. cbn [ffill_from]. rewrite IH. reflexivity.
Qed.

Lemma fillna_series_somes (s o : list (option cell)) : somes s -> fillna_series s o = s.
Proof.
  intros H. revert o. induction H as [|a s Ha Hs IH]; intros [|b o]; try reflexivity.
  destruct a; [|contradiction]. cbn [fillna_series]. rewrite IH. reflexivity.
Qed.

Lemma all_nonnull_somes (s : list (option cell)) : somes s -> all_nonnull s = true.
Proof.
  induction 1 as [|a s Ha Hs IH]; [reflexivity|].
  cbn [all_nonnull forallb]. destruct a; [|contradiction]. exact IH.
Qed.

Lemma cell_eqb_refl (x : cell) : cell_eqb x x = true.
Proof. destruct x; cbn [cell_eqb]; [apply Qeq_bool_refl | apply String.eqb_refl]. Qed.

Lemma nth_all_none (k : nat) (l : list (option cell)) :
  Forall (fun o => o = None) l -> nth k l None = None.
Proof.
  intros H. revert k. induction H as [|a l Ha Hl IH]; intros [|k]; cbn; auto.
Qed.

Lemma row_get_pos (cols : list string) (cells : list (option cell)) (c : string) (k : nat) :
  col_pos c cols = Some k -> row_get cols cells c = nth k cells None.
Proof. intros H. unfold row_get. rewrite H. reflexivity. Qed.

Lemma distinct_cells_repeat (v : cell) (n : nat) : distinct_cells (repeat v (S n)) = [v].
Proof.
  induction n as [|n IH]; [reflexivity|].
  change (repeat v (S (S n))) with (v :: repeat v (S n)). cbn [distinct_cells].
  rewrite IH. cbn [existsb]. rewrite cell_eqb_refl. reflexivity.
Qed.

Lemma nonnull_values_const (v : cell) (l : list row) :
  nonnull_values (map (fun _ => Some v) l) = repeat v (length l).
Proof. induction l as [|a l IH]; [reflexivity|]. cbn. f_equal. exact IH. Qed.

(** One iteration of the constant-column loop of [fill_ohlcv] on a table
    whose first row is null in that column and whose other rows share one
    value there. *)
Lemma const_step (z : option string) (cols : list string) (t0 : Z) (c0 : list (option cell))
    (rest : list row) (c : string) :
  length c0 = length cols -> rest <> [] ->
  row_get cols c0 c = None ->
  (has_col (mkDF z cols ((t0, c0) :: rest)) c = true ->
     exists v, Forall (fun r => row_get cols (snd r) c = Some v) rest) ->
  exists c0',
    (if has_col (mkDF z cols ((t0, c0) :: rest)) c
     then copy_constant_col_to_all_rows (mkDF z cols ((t0, c0) :: rest)) c
     else Ok (mkDF z cols ((t0, c0) :: rest))) = Ok (mkDF z cols ((t0, c0') :: rest)) /\
    length c0' = length cols /\
    (forall c', c' <> c -> row_get cols c0' c' = row_get cols c0 c').
Proof.
  intros Hl Hne H0 Hv. unfold has_col in *. cbn [columns] in *.
  destruct (col_pos c cols) as [k|] eqn:Ek; [|exists c0; auto].
  destruct (Hv eq_refl) as [v Hrv].
  assert (Hcol : map (cell_at k) rest = map (fun _ => Some v) rest).
  { apply map_ext_in. intros r Hr. rewrite Forall_forall in Hrv. specialize (Hrv r Hr).
    unfold cell_at. rewrite <- (row_get_pos _ _ _ _ Ek). exact Hrv. }
  rewrite (row_get_pos _ _ _ _ Ek) in H0.
  exists (replace_nth k (Some v) c0). split; [|split].
  - unfold copy_constant_col_to_all_rows. rewrite (get_col_shape _ _ _ _ _ _ _ Ek). cbn [bind].
    rewrite H0, Hcol. cbn [nonnull_values flat_map app]. fold (nonnull_values (map (fun _ => Some v) rest)).
    rewrite nonnull_values_const. destruct rest as [|r rest]; [contradiction|].
    cbn [length]. rewrite distinct_cells_repeat.
    replace (map (fun _ : option cell => Some v) (None :: map (fun _ : row => Some v) (r :: rest)))
      with (Some v :: map (cell_at k) (r :: rest))
      by (rewrite Hcol; cbn [map]; rewrite map_map; reflexivity).
    rewrite set_col_shape by exact Ek. reflexivity.
  - rewrite replace_nth_length. exact Hl.
  - intros c' Hc'. rewrite (row_get_replace _ _ _ _ _ _ Ek Hl).
    apply String.eqb_neq in Hc'. rewrite String.eqb_sym, Hc'. reflexivity.
Qed.

(** One iteration of the zero-fill loop of [fill_ohlcv]. *)
Lemma zero_step (z : option string) (cols : list string) (t0 : Z) (c0 : list (option cell))
    (rest : list row) (c : string) :
  length c0 = length cols -> complete_rows cols rest ->
  exists c0',
    (if has_col (mkDF z cols ((t0, c0) :: rest)) c
     then (v <- get_col (mkDF z cols ((t0, c0) :: rest)) c ;;
           Ok (set_col (mkDF z cols ((t0, c0) :: rest)) c (fillna_value (CNum 0) v)))
     else Ok (mkDF z cols ((t0, c0) :: rest))) = Ok (mkDF z cols ((t0, c0') :: rest)) /\
    length c0' = length cols /\
    (forall c', c' <> c -> row_get cols c0' c' = row_get cols c0 c') /\
    (has_col (mkDF z cols ((t0, c0) :: rest)) c = true ->
       row_get cols c0' c = match row_get cols c0 c with None => Some (CNum 0) | s => s end).
Proof.
  intros Hl Hr. unfold has_col. cbn [columns].
  destruct (col_pos c cols) as [k|] eqn:Ek; [|exists c0; split; [|split; [|split]]; auto; discriminate].
  exists (replace_nth k (match nth k c0 None with None => Some (CNum 0) | Some _ => nth k c0 None end) c0).
  split; [|split; [|split]].
  - rewrite (get_col_shape _ _ _ _ _ _ _ Ek). cbn [bind fillna_value map].
    fold (fillna_value (CNum 0) (map (cell_at k) rest)).
    rewrite fillna_value_somes by (apply (rest_col_somes cols); [exact Hr | exact (col_pos_lt _ _ _ Ek)]).
    rewrite set_col_shape by exact Ek. reflexivity.
  - rewrite replace_nth_length. exact Hl.
  - intros c' Hc'. rewrite (row_get_replace _ _ _ _ _ _ Ek Hl).
    apply String.eqb_neq in Hc'. rewrite String.eqb_sym, Hc'. reflexivity.
  - intros _. rewrite (row_get_replace _ _ _ _ _ _ Ek Hl), String.eqb_refl.
    rewrite (row_get_pos _ _ _ _ Ek). destruct (nth k c0 None); reflexivity.
Qed.

Lemma has_col_pos (df : DataFrame) (c : string) :
  has_col df c = true -> exists k, col_pos c (columns df) = Some k.
Proof. unfold has_col. destruct (col_pos c (columns df)); [eauto | discriminate]. Qed.

Lemma ffill_head_none (s : list (option cell)) : somes s -> ffill (None :: s) = None :: s.
Proof. intros H. unfold ffill. cbn [ffill_from]. rewrite ffill_from_somes by exact H. reflexivity. Qed.

Lemma fillna_value_head (x : cell) (s : list (option cell)) :
  somes s -> fillna_value x (None :: s) = Some x :: s.
Proof.
  intros H. unfold fillna_value. cbn [map]. fold (fillna_value x s).
  rewrite fillna_value_somes by exact H. reflexivity.
Qed.

Lemma fillna_series_head (x : cell) (s o : list (option cell)) :
  somes s -> fillna_series (None :: s) (Some x :: o) = Some x :: s.
Proof. intros H. cbn [fillna_series]. rewrite fillna_series_somes by exact H. reflexivity. Qed.

Lemma all_nonnull_head (x : cell) (s : list (option cell)) :
  somes s -> all_nonnull (Some x :: s) = true.
Proof. intros H. unfold all_nonnull. cbn [forallb]. exact (all_nonnull_somes s H). Qed.

Ltac streq :=
  repeat match goal with
  | |- context [String.eqb ?a ?b] =>
      let e := eval vm_compute in (String.eqb a b) in change (String.eqb a b) with e
  end.

Ltac rg_step :=
  match goal with
  | |- context [row_get ?cols (replace_nth ?k ?v ?cells) ?c'] =>
      match goal with
      | H : col_pos ?c cols = Some k |- _ =>
          rewrite (row_get_replace cols cells c c' k v H) by (rewrite ?replace_nth_length; assumption)
      end
  end.

Ltac to_rg :=
  match goal with
  | |- nth ?k ?X None = _ =>
      match goal with
      | H : col_pos ?nm ?cols = Some k |- _ => rewrite <- (row_get_pos cols X nm k H)
      end
  end.

Ltac nth_fix V :=
  match goal with
  | |- context [nth ?k ?X None] =>
      replace (nth k X None) with V
        by (symmetry; to_rg; repeat rg_step; streq; cbv beta iota;
            first [ reflexivity
                  | match goal with H : forall c, In c _ -> row_get _ _ c = None |- _ =>
                      apply H; cbn; tauto end
                  | match goal with H : forall c, In c _ -> has_col _ c = true -> row_get _ _ c = Some _ |- _ =>
                      apply H; [cbn; tauto | match goal with H' : forall c, In c OHLCV_CNAMES -> _ |- _ =>
                                               apply H'; cbn; tauto end] end ])
  end.

Ltac gc :=
  match goal with
  | |- context [get_col (mkDF ?z ?cols ((?t, ?cc) :: ?R)) ?nm] =>
      match goal with
      | H : col_pos nm cols = Some ?k |- _ => rewrite (get_col_shape z cols t cc R nm k H)
      end
  end.

(** Take a table whose first row is entirely null, whose other rows are
    fully populated, which has all of OHLCV_CNAMES, and whose constant
    columns present (ticker, table) hold one value across the populated
    rows.  Then [fill_ohlcv] succeeds and leaves every row but the first
    unchanged.  In the first row, each zero-fill column present (volume,
    vwap, transactions, avg_size) is 0, and open, high, low and close all
    equal the second row's open. *)
Lemma fill_first_row_null_success (df : DataFrame) (t0 : Z) (c0 : list (option cell))
    (r1 : row) (rest : list row) :
  rows df = (t0, c0) :: r1 :: rest ->
  length c0 = length (columns df) ->
  Forall (fun o => o = None) c0 ->
  complete_rows (columns df) (r1 :: rest) ->
  (forall c, In c OHLCV_CNAMES -> has_col df c = true) ->
  (forall c, In c default_constant_cnames -> has_col df c = true ->
     exists v, Forall (fun r => row_get (columns df) (snd r) c = Some v) (r1 :: rest)) ->
  exists c0',
    fill_ohlcv df = Ok (mkDF (tz df) (columns df) ((t0, c0') :: r1 :: rest)) /\
    (forall c, In c default_fill_zero_cnames -> has_col df c = true ->
       row_get (columns df) c0' c = Some (CNum 0)) /\
    (forall c, In c ["open"; "high"; "low"; "close"]%string ->
       row_get (columns df) c0' c = row_get (columns df) (snd r1) "open").
Proof.
  destruct df as [z cols rws]. cbn [rows columns tz].
  intros Hrws Hl Hnull Hcomp Hohlcv Hconst. subst rws.
  assert (H0 : forall c, row_get cols c0 c = None).
  { intros c. unfold row_get. destruct (col_pos c cols); [apply nth_all_none; exact Hnull | reflexivity]. }
  assert (Hne : r1 :: rest <> []) by discriminate.
  unfold fill_ohlcv, fill_ohlcv_with. cbn [foldM default_constant_cnames default_fill_zero_cnames].
  destruct (const_step z cols t0 c0 (r1 :: rest) "ticker" Hl Hne (H0 _)
              (Hconst "ticker"%string ltac:(cbn; tauto))) as [cA [EA [LA HA]]].
  rewrite EA. cbn [bind].
  destruct (const_step z cols t0 cA (r1 :: rest) "table" LA Hne
              ltac:(rewrite HA by discriminate; apply H0)
              (fun h => Hconst "table"%string ltac:(cbn; tauto) h)) as [cT [ET [LT HT]]].
  rewrite ET. cbn [bind].
  destruct (zero_step z cols t0 cT (r1 :: rest) "volume" LT Hcomp) as [cV [EV [LV [HV HV']]]].
  rewrite EV. cbn [bind].
  destruct (zero_step z cols t0 cV (r1 :: rest) "vwap" LV Hcomp) as [cW [EW [LW [HW HW']]]].
  rewrite EW. cbn [bind].
  destruct (zero_step z cols t0 cW (r1 :: rest) "transactions" LW Hcomp) as [cX [EX [LX [HX HX']]]].
  rewrite EX. cbn [bind].
  destruct (zero_step z cols t0 cX (r1 :: rest) "avg_size" LX Hcomp) as [cZ [EZ [LZ [HZ HZ']]]].
  rewrite EZ. cbn [bind].
  assert (Hprice : forall c, In c ["open"; "high"; "low"; "close"]%string -> row_get cols cZ c = None).
  { intros c Hc. cbn in Hc.
    rewrite HZ, HX, HW, HV, HT, HA; [apply H0 | ..];
      intros ->; decompose sum Hc; discriminate. }
  assert (Hzero : forall c, In c default_fill_zero_cnames ->
            has_col (mkDF z cols ((t0, c0) :: r1 :: rest)) c = true -> row_get cols cZ c = Some (CNum 0)).
  { intros c Hc Hh. cbn in Hc. decompose sum Hc; subst c.
    - rewrite HZ, HX, HW, HV' by (exact Hh || discriminate). rewrite HT, HA, H0 by discriminate. reflexivity.
    - rewrite HZ, HX, HW' by (exact Hh || discriminate). rewrite HV, HT, HA, H0 by discriminate. reflexivity.
    - rewrite HZ, HX' by (exact Hh || discriminate). rewrite HW, HV, HT, HA, H0 by discriminate. reflexivity.
    - rewrite HZ' by exact Hh. rewrite HX, HW, HV, HT, HA, H0 by discriminate. reflexivity. }
  assert (Hpos : forall c, In c OHLCV_CNAMES -> exists k, col_pos c cols = Some k)
    by (intros c Hc; exact (has_col_pos _ _ (Hohlcv c Hc))).
  destruct (Hpos "open"%string ltac:(cbn; tauto)) as [ko Hko].
  destruct (Hpos "high"%string ltac:(cbn; tauto)) as [kh Hkh].
  destruct (Hpos "low"%string ltac:(cbn; tauto)) as [kl Hkl].
  destruct (Hpos "close"%string ltac:(cbn; tauto)) as [kc Hkc].
  destruct (Hpos "volume"%string ltac:(cbn; tauto)) as [kv Hkv].
  destruct (Hpos "vwap"%string ltac:(cbn; tauto)) as [kw Hkw].
  destruct (Hpos "transactions"%string ltac:(cbn; tauto)) as [kt Hkt].
  assert (Hs : forall k c, col_pos c cols = Some k -> somes (map (cell_at k) (r1 :: rest)))
    by (intros k c Hk; exact (rest_col_somes cols _ k Hcomp (col_pos_lt _ _ _ Hk))).
  assert (Hr1 : exists vo, row_get cols (snd r1) "open" = Some vo).
  { pose proof (Hs ko _ Hko) as Hso. unfold somes in Hso. cbn [map] in Hso.
    inversion Hso as [|? ? Hvo _]. rewrite (row_get_pos _ _ _ _ Hko).
    destruct (cell_at ko r1) as [vo|] eqn:Evo; [|contradiction]. exists vo. exact Evo. }
  destruct Hr1 as [vo Hr1].
  assert (Hsr : forall k c, col_pos c cols = Some k ->
            somes (map (cell_at k) rest)).
  { intros k c Hk. pose proof (Hs k c Hk) as H. inversion H. assumption. }
  (* close.ffill() *)
  gc. cbn [bind].
  replace (nth kc cZ None) with (@None cell)
    by (symmetry; to_rg; apply Hprice; cbn; tauto).
  rewrite ffill_head_none by exact (Hs _ _ Hkc).
  rewrite set_col_shape by exact Hkc.
  (* first_open = df["open"].dropna().iloc[0] *)
  gc. cbn [bind]. nth_fix (@None cell).
  assert (Efo : first_nonnull (None :: map (cell_at ko) (r1 :: rest)) = Ok vo)
    by (cbn [map first_nonnull]; unfold cell_at; rewrite <- (row_get_pos _ _ _ _ Hko), Hr1; reflexivity).
  rewrite Efo. cbn [bind].
  (* close.fillna(first_open) *)
  gc. cbn [bind]. nth_fix (@None cell).
  rewrite fillna_value_head by exact (Hs _ _ Hkc).
  rewrite set_col_shape by exact Hkc.
  (* open, high, low .fillna(close) *)
  gc. cbn [bind]. gc. cbn [bind]. nth_fix (@None cell). nth_fix (Some vo).
  rewrite fillna_series_head by exact (Hs _ _ Hko). rewrite set_col_shape by exact Hko. cbn [bind].
  gc. cbn [bind]. gc. cbn [bind]. nth_fix (@None cell). nth_fix (Some vo).
  rewrite fillna_series_head by exact (Hs _ _ Hkh). rewrite set_col_shape by exact Hkh. cbn [bind].
  gc. cbn [bind]. gc. cbn [bind]. nth_fix (@None cell). nth_fix (Some vo).
  rewrite fillna_series_head by exact (Hs _ _ Hkl). rewrite set_col_shape by exact Hkl. cbn [bind].
  (* the final assertion over OHLCV_CNAMES *)
  cbn [foldM OHLCV_CNAMES]. repeat (gc; cbn [bind]).
  do 4 nth_fix (Some vo). do 3 nth_fix (Some (CNum 0)).
  rewrite !all_nonnull_head by (eapply Hs; eassumption). cbn [andb].
  eexists. split; [reflexivity | split].
  - intros c Hc Hh. cbn in Hc. decompose sum Hc; subst c;
      repeat rg_step; streq; cbv beta iota; (apply Hzero; [cbn; tauto | exact Hh]).
  - intros c Hc. cbn in Hc. decompose sum Hc; subst c;
      repeat rg_step; streq; cbv beta iota; rewrite Hr1; reflexivity.
Qed.

(** C6 (counterexample).  The fixture with its first row nulled and ticker
    MSFT in its last two rows: the first row is entirely null and the others
    are fully populated, yet [fill_ohlcv] fails with a ValueError.  The
    ticker column is constant, and its non-null values are ambiguous. *)
Lemma fill_first_row_null_counterexample :
  Forall (fun o => o = None) (snd null_row) /\
  complete_rows fill_cols (tl (rows (first_row_nulled "MSFT"))) /\
  fill_ohlcv (first_row_nulled "MSFT") = Err ValueError.
Proof.
  split; [repeat constructor|]. split; [repeat constructor; vm_compute; reflexivity|].
  vm_compute. reflexivity.
Qed.


(* ------------------------------------------------------------------ *)
(** ** The late-anchor path of [clean_ohlcv] *)


Lemma Forall_filter_keep {A : Type} (P : A -> Prop) (f : A -> bool) (l : list A) :
  Forall P l -> Forall P (filter f l).
Proof.
  rewrite !Forall_forall. intros H x Hx. apply filter_In in Hx. apply H, Hx.
Qed.

Lemma StronglySorted_filter {A : Type} (R : A -> A -> Prop) (f : A -> bool) (l : list A) :
  StronglySorted R l -> StronglySorted R (filter f l).
Proof.
  induction 1 as [|a l Hs IH Hf]; [constructor|].
  cbn [filter]. destruct (f a); [constructor; [exact IH | apply Forall_filter_keep, Hf] | exact IH].
Qed.

Lemma date_range_sorted (s e freq : Z) (incl : inclusive) :
  0 < freq -> StronglySorted Z.lt (date_range s e freq incl).
Proof.
  intros Hf. unfold date_range. destruct (e <? s); [constructor|].
  apply StronglySorted_filter, grid_sorted, Hf.
Qed.

(** The reindexed table keeps the zone and columns, and its index is
    strictly increasing. *)
Lemma reindex_shape (df : DataFrame) (freq : Z) (start end_ : option Z)
    (bt : option (Z * Z)) (bti : inclusive) (rmd : bool) (sei : inclusive) (r : DataFrame) :
  reindex_timeseries_df df freq start end_ bt bti rmd sei = Ok r ->
  tz r = tz df /\ columns r = columns df /\ StronglySorted Z.lt (index r).
Proof.
  unfold reindex_timeseries_df. intros H.
  destruct (freq <=? 0) eqn:Ef; [discriminate H|]. apply Z.leb_gt in Ef.
  destruct (has_dup (index df)); [discriminate H|].
  inv_bind H. inv_bind H. inv_bind H. injection H as <-. cbn [tz columns].
  split; [reflexivity|]. split; [reflexivity|].
  unfold index. cbn [rows]. rewrite map_map. cbn [fst]. rewrite map_id.
  assert (Hg : StronglySorted Z.lt
                 (match bt with
                  | Some (lo, hi) => filter (in_between_time lo hi bti) (date_range a a0 freq sei)
                  | None => date_range a a0 freq sei
                  end)).
  { destruct bt as [[lo hi]|]; [apply StronglySorted_filter|]; apply date_range_sorted, Ef. }
  destruct rmd.
  - inv_bind E1. injection E1 as <-. apply StronglySorted_filter, Hg.
  - injection E1 as <-. exact Hg.
Qed.

(** [get_first_nonnull_ts] finds a row at the anchor, and every row before
    it is entirely null. *)
Lemma get_first_nonnull_ts_split (rs : list row) (a : Z) :
  get_first_nonnull_ts_rows rs = Ok a ->
  exists pre x post, rs = pre ++ x :: post /\ fst x = a /\
    Forall (fun y => Forall (fun o => o = None) (snd y)) pre.
Proof.
  induction rs as [|r rs IH]; cbn [get_first_nonnull_ts_rows]; [discriminate|].
  destruct (existsb _ (snd r)) eqn:Ex.
  - intros H. injection H as <-. exists [], r, rs. auto.
  - intros H. destruct (IH H) as [pre [x [post [-> [Ha Hp]]]]].
    exists (r :: pre), x, post. split; [reflexivity|]. split; [exact Ha|].
    constructor; [|exact Hp]. apply Forall_forall. intros o Ho.
    destruct o; [|reflexivity]. exfalso.
    assert (existsb (fun o => match o with Some _ => true | None => false end) (snd r) = true)
      by (apply existsb_exists; exists (Some c); auto).
    congruence.
Qed.

Lemma sorted_split (pre post : list row) (x : row) :
  StronglySorted Z.lt (map fst (pre ++ x :: post)) ->
  Forall (fun y => fst y < fst x) pre /\ Forall (fun y => fst x < fst y) post.
Proof.
  induction pre as [|p pre IH]; cbn [app map]; intros H; inversion H as [|? ? Hs Hf]; subst.
  - split; [constructor|]. rewrite Forall_map in Hf. exact Hf.
  - destruct (IH Hs) as [H1 H2]. split; [|exact H2]. constructor; [|exact H1].
    rewrite Forall_map, Forall_app in Hf. destruct Hf as [_ Hf]. inversion Hf. assumption.
Qed.

Lemma set_cells_fst (k : nat) (rs : list row) (vals : list (option cell)) :
  map fst (set_cells k rs vals) = map fst rs.
Proof.
  revert vals. induction rs as [|r rs IH]; intros [|v vals]; cbn [set_cells map fst]; try reflexivity.
  f_equal. apply IH.
Qed.

Lemma row_get_replace_other (cols : list string) (cells : list (option cell)) (c c' : string)
    (k : nat) (v : option cell) :
  col_pos c cols = Some k -> c' <> c ->
  row_get cols (replace_nth k v cells) c' = row_get cols cells c'.
Proof.
  intros Hk Hc. unfold row_get. destruct (col_pos c' cols) as [k'|] eqn:Hk'; [|reflexivity].
  apply nth_replace_other. intros ->. apply Hc. exact (col_pos_inj _ _ _ _ Hk' Hk).
Qed.

Lemma same_outside_refl_all (S cols : list string) (rs : list row) :
  Forall2 (same_outside S cols) rs rs.
Proof. induction rs; constructor; [split; reflexivity | assumption]. Qed.

(** Overwriting a column that exists keeps the zone, the columns, the
    timestamps and every other column. *)
Lemma set_col_keep (d : DataFrame) (c : string) (k : nat) (vals : list (option cell)) :
  col_pos c (columns d) = Some k ->
  tz (set_col d c vals) = tz d /\ columns (set_col d c vals) = columns d /\
  Forall2 (same_outside [c] (columns d)) (rows (set_col d c vals)) (rows d).
Proof.
  intros Hk. unfold set_col. rewrite Hk. cbn [tz columns rows].
  split; [reflexivity|]. split; [reflexivity|].
  generalize (rows d) as rs. intros rs. revert vals.
  induction rs as [|r rs IH]; intros [|v vs]; cbn [set_cells];
    try apply same_outside_refl_all.
  constructor; [|apply IH]. split; [reflexivity|].
  intros c' Hc'. cbn [snd]. apply (row_get_replace_other _ _ c); [exact Hk|].
  intros ->. apply Hc'. left. reflexivity.
Qed.

Lemma Forall2_compose {A B C : Type} (R1 : A -> B -> Prop) (R2 : B -> C -> Prop)
    (R3 : A -> C -> Prop) (l1 : list A) (l2 : list B) (l3 : list C) :
  (forall x y z, R1 x y -> R2 y z -> R3 x z) ->
  Forall2 R1 l1 l2 -> Forall2 R2 l2 l3 -> Forall2 R3 l1 l3.
Proof.
  intros HR H12. revert l3. induction H12 as [|x y l1 l2 Hxy H IH]; intros l3 H23;
    inversion H23; subst; constructor; eauto.
Qed.

Lemma Forall2_weaken {A B : Type} (R R' : A -> B -> Prop) (l1 : list A) (l2 : list B) :
  (forall x y, R x y -> R' x y) -> Forall2 R l1 l2 -> Forall2 R' l1 l2.
Proof. intros HR H. induction H; constructor; auto. Qed.

Lemma same_outside_fst (S cols : list string) (l1 l2 : list row) :
  Forall2 (same_outside S cols) l1 l2 -> map fst l1 = map fst l2.
Proof. induction 1 as [|x y l1 l2 [Hf _] _ IH]; cbn [map]; congruence. Qed.

Lemma Forall2_in_l {A B : Type} (R : A -> B -> Prop) (l1 : list A) (l2 : list B) (x : A) :
  Forall2 R l1 l2 -> In x l1 -> exists y, In y l2 /\ R x y.
Proof.
  induction 1 as [|a b l1 l2 Hab H IH]; [intros []|].
  intros [<- | Hx]; [exists b; split; [left|]; auto|].
  destruct (IH Hx) as [y [Hy Hr]]. exists y. split; [right|]; auto.
Qed.

Lemma get_col_pos (d : DataFrame) (c : string) (v : list (option cell)) :
  get_col d c = Ok v -> exists k, col_pos c (columns d) = Some k.
Proof. unfold get_col. destruct (col_pos c (columns d)); [eauto | discriminate]. Qed.

Lemma copy_constant_keep (d d' : DataFrame) (c : string) :
  copy_constant_col_to_all_rows d c = Ok d' ->
  tz d' = tz d /\ columns d' = columns d /\ Forall2 (same_outside [c] (columns d)) (rows d') (rows d).
Proof.
  unfold copy_constant_col_to_all_rows. intros H. inv_bind H.
  destruct (get_col_pos _ _ _ E) as [k Hk].
  destruct (distinct_cells (nonnull_values a)) as [|v [|]]; try discriminate H.
  injection H as <-. apply (set_col_keep _ _ _ _ Hk).
Qed.

(** The constant-column loop touches only the listed columns. *)
Lemma copy_constants_keep (S : list string) (d d' : DataFrame) :
  foldM (fun d c => if has_col d c then copy_constant_col_to_all_rows d c else Ok d) S d = Ok d' ->
  tz d' = tz d /\ columns d' = columns d /\ Forall2 (same_outside S (columns d)) (rows d') (rows d).
Proof.
  revert d. induction S as [|c S IH]; intros d H; cbn [foldM] in H.
  - injection H as <-. split; [reflexivity|]. split; [reflexivity|]. apply same_outside_refl_all.
  - inv_bind H. destruct (IH _ H) as [Ht [Hc Hr]].
    assert (Hstep : tz a = tz d /\ columns a = columns d /\
                    Forall2 (same_outside [c] (columns d)) (rows a) (rows d)).
    { destruct (has_col d c); [exact (copy_constant_keep _ _ _ E)|].
      injection E as <-. split; [reflexivity|]. split; [reflexivity|]. apply same_outside_refl_all. }
    destruct Hstep as [Ht' [Hc' Hr']].
    split; [congruence|]. split; [congruence|]. rewrite Hc' in Hr.
    refine (Forall2_compose _ _ _ _ _ _ _ Hr Hr').
    intros x y z [Hf1 H1] [Hf2 H2]. split; [congruence|].
    intros c' Hn. rewrite H1, H2; [reflexivity | |]; intros Hin; apply Hn;
      [destruct Hin as [<- | []]; left; reflexivity | right; exact Hin].
Qed.

(** ** A constant column with two values *)

Lemma cell_eqb_sym (x y : cell) : cell_eqb x y = cell_eqb y x.
Proof.
  destruct x as [p|a], y as [q|b]; cbn [cell_eqb]; try reflexivity.
  - apply Bool.eq_true_iff_eq. rewrite !Qeq_bool_iff. split; apply Qeq_sym.
  - apply String.eqb_sym.
Qed.

Lemma cell_eqb_trans (x y z : cell) :
  cell_eqb x y = true -> cell_eqb y z = true -> cell_eqb x z = true.
Proof.
  destruct x as [p|a], y as [q|b], z as [r|c]; cbn [cell_eqb]; try discriminate.
  - rewrite !Qeq_bool_iff. apply Qeq_trans.
  - intros H1 H2. apply String.eqb_eq in H1, H2. subst. apply String.eqb_refl.
Qed.

(** Every value of a list has an equal representative among its distinct
    values. *)
Lemma distinct_cells_rep (s : list cell) (x : cell) :
  In x s -> exists y, In y (distinct_cells s) /\ cell_eqb x y = true.
Proof.
  induction s as [|a s IH]; [intros []|]. intros Hx. cbn [distinct_cells].
  destruct (existsb (cell_eqb a) (distinct_cells s)) eqn:Ea.
  - destruct Hx as [<- | Hx]; [apply existsb_exists in Ea; exact Ea | apply IH, Hx].
  - destruct Hx as [<- | Hx].
    + exists a. split; [left; reflexivity | apply cell_eqb_refl].
    + destruct (IH Hx) as [y [Hy Hxy]]. exists y. split; [right; exact Hy | exact Hxy].
Qed.

Lemma Forall2_in_r {A B : Type} (R : A -> B -> Prop) (l1 : list A) (l2 : list B) (y : B) :
  Forall2 R l1 l2 -> In y l2 -> exists x, In x l1 /\ R x y.
Proof.
  induction 1 as [|a b l1 l2 Hab H IH]; [intros []|].
  intros [<- | Hy]; [exists a; split; [left|]; auto|].
  destruct (IH Hy) as [x [Hx Hr]]. exists x. split; [right|]; auto.
Qed.

(** [copy_constant_col_to_all_rows] fails on a column holding two
    non-equal values. *)
Lemma copy_constant_clash (d : DataFrame) (c : string) (r1 r2 : row) (v1 v2 : cell) :
  has_col d c = true -> In r1 (rows d) -> In r2 (rows d) ->
  row_get (columns d) (snd r1) c = Some v1 -> row_get (columns d) (snd r2) c = Some v2 ->
  cell_eqb v1 v2 = false ->
  copy_constant_col_to_all_rows d c = Err ValueError.
Proof.
  intros Hh H1 H2 Hv1 Hv2 Hne. unfold has_col in Hh.
  unfold copy_constant_col_to_all_rows, get_col.
  destruct (col_pos c (columns d)) as [k|] eqn:Ek; [|discriminate Hh]. cbn [bind].
  unfold row_get in Hv1, Hv2. rewrite Ek in Hv1, Hv2.
  assert (Hin : forall r v, In r (rows d) -> nth k (snd r) None = Some v ->
                  In v (nonnull_values (map (cell_at k) (rows d)))).
  { intros r v Hr Hv. unfold nonnull_values. apply in_flat_map.
    exists (Some v). split; [|left; reflexivity].
    rewrite <- Hv. exact (in_map (cell_at k) _ r Hr). }
  destruct (distinct_cells_rep _ _ (Hin _ _ H1 Hv1)) as [y1 [Hy1 E1]].
  destruct (distinct_cells_rep _ _ (Hin _ _ H2 Hv2)) as [y2 [Hy2 E2]].
  destruct (distinct_cells (nonnull_values (map (cell_at k) (rows d)))) as [|w [|w' ws]];
    [destruct Hy1 | | reflexivity].
  destruct Hy1 as [<- | []]. destruct Hy2 as [<- | []].
  rewrite cell_eqb_sym in E2. rewrite (cell_eqb_trans _ _ _ E1 E2) in Hne. discriminate Hne.
Qed.

(** The constant-column loop fails when one of its columns holds two
    non-equal values: the columns processed before it leave that column
    as it is. *)
Lemma const_fold_clash (S : list string) (d : DataFrame) (c : string) (r1 r2 : row)
    (v1 v2 : cell) :
  In c S -> has_col d c = true -> In r1 (rows d) -> In r2 (rows d) ->
  row_get (columns d) (snd r1) c = Some v1 -> row_get (columns d) (snd r2) c = Some v2 ->
  cell_eqb v1 v2 = false ->
  is_err (foldM (fun d c => if has_col d c then copy_constant_col_to_all_rows d c else Ok d) S d)
    = true.
Proof.
  revert d r1 r2. induction S as [|x S IH]; intros d r1 r2 Hc Hh H1 H2 Hv1 Hv2 Hne;
    [destruct Hc|].
  cbn [foldM]. destruct (String.eqb x c) eqn:Exc.
  - apply String.eqb_eq in Exc. subst x.
    rewrite Hh, (copy_constant_clash d c r1 r2 v1 v2) by assumption. reflexivity.
  - apply String.eqb_neq in Exc. destruct Hc as [Hc | Hc]; [contradiction|].
    destruct (if has_col d x then copy_constant_col_to_all_rows d x else Ok d) as [d'|e] eqn:Ed;
      [cbn [bind] | reflexivity].
    assert (Hk : columns d' = columns d /\
                 Forall2 (same_outside [x] (columns d)) (rows d') (rows d)).
    { destruct (has_col d x); [apply (copy_constant_keep _ _ _ Ed)|].
      injection Ed as <-. split; [reflexivity|]. apply same_outside_refl_all. }
    destruct Hk as [Hcols Hrows].
    destruct (Forall2_in_r _ _ _ _ Hrows H1) as [r1' [H1' [_ S1]]].
    destruct (Forall2_in_r _ _ _ _ Hrows H2) as [r2' [H2' [_ S2]]].
    assert (Hx : ~ In c [x]) by (intros [Hx | []]; apply Exc, Hx).
    apply (IH d' r1' r2'); try assumption.
    + unfold has_col. rewrite Hcols. exact Hh.
    + rewrite Hcols, (S1 c Hx). exact Hv1.
    + rewrite Hcols, (S2 c Hx). exact Hv2.
Qed.

(** [fill_ohlcv] fails on a table whose ticker or table column holds two
    non-equal values. *)
Lemma fill_constant_clash_fails (df : DataFrame) (c : string) (r1 r2 : row) (v1 v2 : cell) :
  In c default_constant_cnames -> has_col df c = true -> In r1 (rows df) -> In r2 (rows df) ->
  row_get (columns df) (snd r1) c = Some v1 -> row_get (columns df) (snd r2) c = Some v2 ->
  cell_eqb v1 v2 = false ->
  is_err (fill_ohlcv df) = true.
Proof.
  intros Hc Hh H1 H2 Hv1 Hv2 Hne.
  pose proof (const_fold_clash _ _ _ _ _ _ _ Hc Hh H1 H2 Hv1 Hv2 Hne) as Hf.
  unfold fill_ohlcv, fill_ohlcv_with. revert Hf.
  generalize (foldM (fun d c => if has_col d c then copy_constant_col_to_all_rows d c else Ok d)
                default_constant_cnames df).
  intros [x|e] Hf; [discriminate Hf | reflexivity].
Qed.

(** C6 (amended).  Take a table whose first row is entirely null, whose
    other rows are fully populated, which has all of OHLCV_CNAMES, and whose
    constant columns present (ticker, table) hold one value across the
    populated rows.  Then [fill_ohlcv] succeeds and leaves every row but the
    first unchanged.  In the first row, each zero-fill column present
    (volume, vwap, transactions, avg_size) is 0, and open, high, low and
    close all equal the second row's open.  And on any table whose ticker or
    table column holds two distinct values, [fill_ohlcv] fails instead. *)
Theorem fill_first_row_null_amended :
  (forall (df : DataFrame) (t0 : Z) (c0 : list (option cell)) (r1 : row) (rest : list row),
    rows df = (t0, c0) :: r1 :: rest ->
    length c0 = length (columns df) ->
    Forall (fun o => o = None) c0 ->
    complete_rows (columns df) (r1 :: rest) ->
    (forall c, In c OHLCV_CNAMES -> has_col df c = true) ->
    (forall c, In c default_constant_cnames -> has_col df c = true ->
       exists v, Forall (fun r => row_get (columns df) (snd r) c = Some v) (r1 :: rest)) ->
    exists c0',
      fill_ohlcv df = Ok (mkDF (tz df) (columns df) ((t0, c0') :: r1 :: rest)) /\
      (forall c, In c default_fill_zero_cnames -> has_col df c = true ->
         row_get (columns df) c0' c = Some (CNum 0)) /\
      (forall c, In c ["open"; "high"; "low"; "close"]%string ->
         row_get (columns df) c0' c = row_get (columns df) (snd r1) "open")) /\
  (forall (df : DataFrame) (c : string) (r1 r2 : row) (v1 v2 : cell),
    In c default_constant_cnames -> has_col df c = true ->
    In r1 (rows df) -> In r2 (rows df) ->
    row_get (columns df) (snd r1) c = Some v1 -> row_get (columns df) (snd r2) c = Some v2 ->
    cell_eqb v1 v2 = false ->
    is_err (fill_ohlcv df) = true).
Proof. split; [exact fill_first_row_null_success | exact fill_constant_clash_fails]. Qed.

Lemma fill_first_row_null_amended_witness :
  (exists c0', fill_ohlcv (first_row_nulled "AAPL")
    = Ok (mkDF (Some "America/New_York"%string) fill_cols ((t0930, c0') :: tl (rows (first_row_nulled "AAPL")))) /\
    row_get fill_cols c0' "close" = Some (CNum (15045 # 100))) /\
  is_err (fill_ohlcv (first_row_nulled "MSFT")) = true.
Proof.
  split.
  2: { apply (proj2 fill_first_row_null_amended (first_row_nulled "MSFT") "ticker"%string
                (nth 1 (rows (first_row_nulled "MSFT")) null_row)
                (nth 3 (rows (first_row_nulled "MSFT")) null_row) (CStr "AAPL") (CStr "MSFT")).
       - cbn; tauto.
       - reflexivity.
       - apply nth_In. cbn. lia.
       - apply nth_In. cbn. lia.
       - reflexivity.
       - reflexivity.
       - reflexivity. }
  destruct (proj1 fill_first_row_null_amended (first_row_nulled "AAPL") t0930 (repeat None 9)
              (fixture_row 1 1500 (15050 # 100) 75 (15055 # 100) (15045 # 100) (15060 # 100) (15040 # 100) "AAPL")
              (tl (tl (rows (first_row_nulled "AAPL")))))
    as [c0' [E [_ Hp]]].
  - reflexivity.
  - reflexivity.
  - repeat constructor.
  - repeat constructor; vm_compute; reflexivity.
  - intros c Hc. cbn in Hc. decompose sum Hc; subst c; reflexivity.
  - intros c Hc Hh. cbn in Hc. decompose sum Hc; subst c.
    + exists (CStr "AAPL"). repeat constructor.
    + vm_compute in Hh. discriminate Hh.
  - exists c0'. split; [exact E|]. exact (Hp "close"%string ltac:(cbn; tauto)).
Defined.

Lemma foldM_inv {A B : Type} (P : A -> Prop) (f : A -> B -> result A) (l : list B) (a a' : A) :
  (forall a x a', P a -> f a x = Ok a' -> P a') -> P a -> foldM f l a = Ok a' -> P a'.
Proof.
  intros Hstep. revert a. induction l as [|x l IH]; intros a Ha H; cbn [foldM] in H.
  - injection H as <-. exact Ha.
  - inv_bind H. exact (IH _ (Hstep _ _ _ Ha E) H).
Qed.

Lemma get_set_shape (d0 d : DataFrame) (c : string) (v0 v : list (option cell)) :
  get_col d c = Ok v0 -> same_shape d0 d -> same_shape d0 (set_col d c v).
Proof.
  intros Hg [Ht [Hc Hi]]. destruct (get_col_pos _ _ _ Hg) as [k Hk].
  destruct (set_col_keep d c k v Hk) as [Ht' [Hc' Hr]].
  split; [congruence|]. split; [congruence|]. unfold index in *.
  rewrite (same_outside_fst _ _ _ _ Hr). exact Hi.
Qed.

(** [fill_ohlcv] keeps the zone, the columns and the index. *)
Lemma fill_ohlcv_shape (cc fz : list string) (d d' : DataFrame) :
  fill_ohlcv_with cc fz d = Ok d' -> same_shape d d'.
Proof.
  unfold fill_ohlcv_with. intros H.
  inv_bind H. inv_bind H. inv_bind H. inv_bind H. inv_bind H. inv_bind H. inv_bind H. inv_bind H.
  destruct a6; [injection H as <-|discriminate H].
  assert (Hrefl : same_shape d d) by (split; [|split]; reflexivity).
  assert (Ha : same_shape d a).
  { destruct (copy_constants_keep _ _ _ E) as [Ht [Hc Hr]].
    split; [exact Ht|]. split; [exact Hc|]. unfold index. exact (same_outside_fst _ _ _ _ Hr). }
  assert (Ha0 : same_shape d a0).
  { refine (foldM_inv _ _ _ _ _ _ Ha E0). intros x c y Hx Hs.
    destruct (has_col x c); [|injection Hs as <-; exact Hx].
    inv_bind Hs. injection Hs as <-. eapply get_set_shape; eassumption. }
  refine (foldM_inv _ _ _ _ _ _ _ E5).
  - intros x c y Hx Hs. inv_bind Hs. inv_bind Hs. injection Hs as <-.
    eapply get_set_shape; eassumption.
  - apply (get_set_shape _ _ _ _ _ E4), (get_set_shape _ _ _ _ _ E1), Ha0.
Qed.

Lemma filter_drop_all {A : Type} (f : A -> bool) (l : list A) :
  (forall x, In x l -> f x = false) -> filter f l = [].
Proof.
  induction l as [|y l IH]; intros H; [reflexivity|].
  cbn [filter]. rewrite (H y (in_eq _ _)). apply IH. intros x Hx. apply H, in_cons, Hx.
Qed.

(** Slicing a table at the anchor [a] when [a] is a timestamp of its index:
    [loc[:a]], [loc[a:]] and the rows strictly before [a]. *)
Lemma filter_split (pre post : list row) (x : row) (a : Z) :
  Forall (fun y => fst y < a) pre -> fst x = a -> Forall (fun y => a < fst y) post ->
  filter (fun r => fst r <=? a) (pre ++ x :: post) = pre ++ [x] /\
  filter (fun r => a <=? fst r) (pre ++ x :: post) = x :: post /\
  filter (fun r => fst r <? a) (pre ++ x :: post) = pre.
Proof.
  rewrite !Forall_forall. intros Hpre Hx Hpost. rewrite !filter_app. cbn [filter].
  rewrite Hx, Z.leb_refl, Z.ltb_irrefl.
  repeat split.
  - rewrite (filter_keep_all _ pre) by (intros y Hy; apply Z.leb_le; specialize (Hpre y Hy); lia).
    rewrite (filter_drop_all _ post) by (intros y Hy; apply Z.leb_gt; apply Hpost, Hy).
    reflexivity.
  - rewrite (filter_drop_all _ pre) by (intros y Hy; apply Z.leb_gt; apply Hpre, Hy).
    rewrite (filter_keep_all _ post) by (intros y Hy; apply Z.leb_le; specialize (Hpost y Hy); lia).
    reflexivity.
  - rewrite (filter_keep_all _ pre) by (intros y Hy; apply Z.ltb_lt, Hpre, Hy).
    rewrite (filter_drop_all _ post) by (intros y Hy; apply Z.ltb_ge; specialize (Hpost y Hy); lia).
    apply app_nil_r.
Qed.

Lemma row_get_all_none (cols : list string) (cells : list (option cell)) (c : string) :
  Forall (fun o => o = None) cells -> row_get cols cells c = None.
Proof.
  intros H. unfold row_get. destruct (col_pos c cols); [apply nth_all_none, H | reflexivity].
Qed.

(** On a strictly increasing index, every row before the anchor is entirely
    null. *)
Lemma before_anchor_null (rs : list row) (a : Z) (x : row) :
  StronglySorted Z.lt (map fst rs) -> get_first_nonnull_ts_rows rs = Ok a ->
  In x rs -> fst x < a -> Forall (fun o => o = None) (snd x).
Proof.
  intros Hs Ha Hx Hlt. destruct (get_first_nonnull_ts_split _ _ Ha) as [pre [y [post [-> [Hy Hp]]]]].
  destruct (sorted_split _ _ _ Hs) as [_ Hpost]. rewrite Forall_forall in Hp, Hpost.
  apply in_app_or in Hx as [Hx | [<- | Hx]]; [exact (Hp _ Hx) | lia |].
  specialize (Hpost _ Hx). lia.
Qed.

Lemma no_nulls_from (d : DataFrame) (a : Z) (x : row) :
  no_nulls (loc_from a d) = true -> In x (rows d) -> a <= fst x -> all_nonnull (snd x) = true.
Proof.
  unfold no_nulls, loc_from. cbn [rows]. intros H Hx Ha. rewrite forallb_forall in H.
  apply H, filter_In. split; [exact Hx|]. apply Z.leb_le, Ha.
Qed.

Lemma Forall2_cons_r_ex {A B : Type} (R : A -> B -> Prop) (l : list A) (b : B) (m : list B) :
  Forall2 R l (b :: m) -> exists y l', l = y :: l' /\ R y b /\ Forall2 R l' m.
Proof. intros H. inversion H; subst. eauto. Qed.

Ltac inv_bind_as H x E :=
  match type of H with
  | bind ?m _ = Ok _ => destruct m as [x|] eqn:E; cbn [bind] in H; [|discriminate H]
  end.

(** C5.  Suppose the reindexed table [r] has its anchor [a] (first
    timestamp with any non-null cell) more than the leading-gap threshold
    after its first timestamp, and [clean_ohlcv] returns [out].  Then [out]
    has the columns and the index of [r], and that index is strictly
    increasing.  The rows of [out] before [a] match those of [r] outside the
    constant columns, and every such cell is null.  Every row of [out] from
    [a] on has no null. *)
Theorem clean_late_anchor_split (df : DataFrame) (tf : Z) (start end_ : option Z)
    (bt : option (Z * Z)) (bti : inclusive) (rmd : bool) (thr : option Z)
    (ccols : list string) (r out : DataFrame) (a t0 : Z) (c0 : list (option cell))
    (rs : list row) :
  reindex_timeseries_df df tf start end_ bt bti rmd Both = Ok r ->
  get_first_nonnull_ts r = Ok a ->
  rows r = (t0, c0) :: rs ->
  bfill_threshold tf thr < a - t0 ->
  clean_ohlcv df tf start end_ bt bti rmd thr ccols = Ok out ->
  columns out = columns r /\
  index out = index r /\
  StronglySorted Z.lt (index out) /\
  Forall2 (same_outside ccols (columns r))
    (filter (fun x => fst x <? a) (rows out)) (filter (fun x => fst x <? a) (rows r)) /\
  (forall x c, In x (rows out) -> fst x < a -> ~ In c ccols ->
     row_get (columns out) (snd x) c = None) /\
  (forall x, In x (rows out) -> a <= fst x -> all_nonnull (snd x) = true).
Proof.
  intros Hr Ha Hrows Hthr Hc.
  destruct (reindex_shape _ _ _ _ _ _ _ _ _ Hr) as [Htz [Hcols Hsort]].
  unfold get_first_nonnull_ts in Ha.
  destruct (get_first_nonnull_ts_split _ _ Ha) as [pre [x [post [Esplit [Hxa Hpre_null]]]]].
  pose proof Hsort as Hsort'. unfold index in Hsort'. rewrite Esplit in Hsort'.
  destruct (sorted_split _ _ _ Hsort') as [Hpre_lt Hpost_gt]. rewrite Hxa in Hpre_lt, Hpost_gt.
  unfold clean_ohlcv in Hc. rewrite Hr in Hc. cbn [bind] in Hc.
  destruct (no_nulls r) eqn:Hnn.
  - (* nothing to fill: the reindexed table is returned *)
    injection Hc as <-. split; [reflexivity|]. split; [reflexivity|]. split; [exact Hsort|].
    split; [apply same_outside_refl_all|]. split.
    + intros y c Hy Hlt _. apply row_get_all_none.
      exact (before_anchor_null _ _ _ Hsort Ha Hy Hlt).
    + intros y Hy _. unfold no_nulls in Hnn. rewrite forallb_forall in Hnn. exact (Hnn y Hy).
  - unfold get_first_nonnull_ts in Hc. rewrite Ha in Hc. cbn [bind] in Hc.
    inv_bind_as Hc dC EC.
    destruct (copy_constants_keep _ _ _ EC) as [HtzC [HcolC HrelC]].
    pose proof HrelC as HrelH. rewrite Hrows in HrelH.
    destruct (Forall2_cons_r_ex _ _ _ _ HrelH) as [y [l' [Ehead [[Hyt _] _]]]].
    rewrite Ehead in Hc. cbn [fst] in Hyt.
    replace (a - fst y <=? bfill_threshold tf thr) with false in Hc
      by (symmetry; apply Z.leb_gt; rewrite Hyt; exact Hthr).
    inv_bind_as Hc aft EF.
    destruct (no_nulls _) eqn:Hnn2 in Hc; [|discriminate Hc]. injection Hc as <-.
    pose proof (same_outside_fst _ _ _ _ HrelC) as HidxC.
    rewrite Esplit in HrelC.
    apply Forall2_app_inv_r in HrelC as [preC [restC [HpreC [HrestC ErowsC]]]].
    destruct (Forall2_cons_r_ex _ _ _ _ HrestC) as [xC [postC [-> [[HxCt _] HpostC]]]].
    rewrite Hxa in HxCt. cbn [fst] in HxCt.
    assert (HpreC_lt : Forall (fun z => fst z < a) preC).
    { pose proof (same_outside_fst _ _ _ _ HpreC) as Hm.
      pose proof Hpre_lt as H. apply (Forall_map fst (fun t => t < a)) in H.
      rewrite <- Hm in H. apply (Forall_map fst (fun t => t < a)) in H. exact H. }
    assert (HpostC_gt : Forall (fun z => a < fst z) postC).
    { pose proof (same_outside_fst _ _ _ _ HpostC) as Hm.
      pose proof Hpost_gt as H. apply (Forall_map fst (fun t => a < t)) in H.
      rewrite <- Hm in H. apply (Forall_map fst (fun t => a < t)) in H. exact H. }
    destruct (filter_split _ _ _ _ HpreC_lt HxCt HpostC_gt) as [Fle [Fge Flt]].
    destruct (fill_ohlcv_shape _ _ _ _ EF) as [HtzF [HcolF HidxF]].
    assert (HidxF' : index aft = map fst (xC :: postC))
      by (rewrite HidxF; unfold index, loc_from; cbn [rows]; rewrite ErowsC, Fge; reflexivity).
    assert (Haft_ge : forall z, In z (rows aft) -> a <= fst z).
    { intros z Hz. assert (Hz' : In (fst z) (index aft)) by (unfold index; apply in_map, Hz).
      rewrite HidxF' in Hz'. clear Hz. rename Hz' into Hz.
      destruct Hz as [<- | Hz]; [lia|]. apply in_map_iff in Hz as [w [<- Hw]].
      rewrite Forall_forall in HpostC_gt. specialize (HpostC_gt w Hw). lia. }
    assert (Hrows_out : rows (concat_rows (drop_last_row (loc_upto a dC)) aft) = preC ++ rows aft).
    { unfold concat_rows, drop_last_row, loc_upto. cbn [rows]. rewrite ErowsC, Fle, removelast_last.
      reflexivity. }
    assert (Hcols_out : columns (concat_rows (drop_last_row (loc_upto a dC)) aft) = columns r)
      by (cbn; exact HcolC).
    assert (Hidx_out : index (concat_rows (drop_last_row (loc_upto a dC)) aft) = index r).
    { unfold index. rewrite Hrows_out, map_app, <- HidxC, ErowsC, map_app. f_equal. exact HidxF'. }
    split; [exact Hcols_out|]. split; [exact Hidx_out|]. split; [rewrite Hidx_out; exact Hsort|].
    split; [|split].
    + rewrite Hrows_out, filter_app, Esplit.
      destruct (filter_split _ _ _ _ Hpre_lt Hxa Hpost_gt) as [_ [_ Flt0]]. rewrite Flt0.
      rewrite (filter_keep_all _ preC)
        by (intros z Hz; apply Z.ltb_lt; rewrite Forall_forall in HpreC_lt; exact (HpreC_lt z Hz)).
      rewrite (filter_drop_all _ (rows aft))
        by (intros z Hz; apply Z.ltb_ge; exact (Haft_ge z Hz)).
      rewrite app_nil_r. exact HpreC.
    + intros z c Hz Hlt Hn. rewrite Hrows_out in Hz. rewrite Hcols_out.
      apply in_app_or in Hz as [Hz | Hz]; [|specialize (Haft_ge z Hz); lia].
      destruct (Forall2_in_l _ _ _ _ HpreC Hz) as [w [Hw [_ Hsame]]].
      rewrite (Hsame c Hn). apply row_get_all_none.
      rewrite Forall_forall in Hpre_null. exact (Hpre_null w Hw).
    + intros z Hz Hge. exact (no_nulls_from _ _ _ Hnn2 Hz Hge).
Qed.

Lemma clean_late_anchor_split_witness :
  clean_ohlcv late_df MIN_5 (Some t0930) None None Both false None ["ticker"; "table"]%string = Ok late_out /\
  StronglySorted Z.lt (index late_out).
Proof.
  assert (Hc : clean_ohlcv late_df MIN_5 (Some t0930) None None Both false None ["ticker"; "table"]%string
               = Ok late_out) by (vm_compute; reflexivity).
  split; [exact Hc|].
  refine (proj1 (proj2 (proj2 (clean_late_anchor_split late_df MIN_5 (Some t0930) None None Both false None
            ["ticker"; "table"]%string late_grid late_out (t0930 + 15 * MIN_5) t0930 (repeat None 9)
            (tl (rows late_grid)) _ _ _ _ Hc)))).
  - vm_compute. reflexivity.
  - vm_compute. reflexivity.
  - vm_compute. reflexivity.
  - vm_compute. reflexivity.
Defined.

(* ------------------------------------------------------------------ *)
(** * Further properties of the code *)

(** ** Validators and [create] *)

Lemma supported_tf_existsb (tf : Z) :
  existsb (Z.eqb tf) [MIN_1; MIN_5] = true <-> (tf = MIN_1 \/ tf = MIN_5).
Proof.
  cbn [existsb]. rewrite orb_false_r, orb_true_iff, !Z.eqb_eq. reflexivity.
Qed.

Lemma validate_spec_ok_iff (s : OHLCVAggSpec) :
  validate_ohlcvaggspec s = Ok tt <->
  ((s.(timeframe) = MIN_1 \/ s.(timeframe) = MIN_5) /\ s.(offset) = 0).
Proof.
  unfold validate_ohlcvaggspec. rewrite <- supported_tf_existsb.
  destruct (existsb (Z.eqb (timeframe s)) [MIN_1; MIN_5]); cbn [negb];
    [|split; [discriminate | intros [H _]; discriminate H]].
  destruct (offset s <? 0) eqn:En; [apply Z.ltb_lt in En; split; [discriminate | lia]|].
  destruct (0 <? offset s) eqn:Ep.
  - apply Z.ltb_lt in Ep. split; [|lia]. cbn [py_ne td_mod]. discriminate.
  - apply Z.ltb_ge in En, Ep. split; [intros _; split; [reflexivity | lia] | reflexivity].
Qed.

(** [validate_ohlcvaggspec] accepts a spec exactly when its timeframe is
    MIN_1 or MIN_5 and its offset is zero. *)
Theorem validate_spec_accepts_exactly (s : OHLCVAggSpec) :
  validate_ohlcvaggspec s = Ok tt <->
  ((s.(timeframe) = MIN_1 \/ s.(timeframe) = MIN_5) /\ s.(offset) = 0).
Proof. exact (validate_spec_ok_iff s). Qed.

(** An unsupported timeframe is reported as NotImplementedError whatever
    the offset: the timeframe is checked first. *)
Theorem validate_spec_unsupported_timeframe (s : OHLCVAggSpec) :
  s.(timeframe) <> MIN_1 -> s.(timeframe) <> MIN_5 ->
  validate_ohlcvaggspec s = Err NotImplementedError.
Proof.
  intros H1 H5. unfold validate_ohlcvaggspec.
  destruct (existsb (Z.eqb (timeframe s)) [MIN_1; MIN_5]) eqn:E; [|reflexivity].
  apply supported_tf_existsb in E. tauto.
Qed.

Lemma validate_spec_unsupported_timeframe_witness :
  validate_ohlcvaggspec (mkSpec "AAPL" HOUR_1 MIN_1) = Err NotImplementedError.
Proof. apply validate_spec_unsupported_timeframe; cbn; discriminate. Defined.

(** With a supported timeframe, a non-zero offset (negative or positive) is
    reported as ValueError. *)
Theorem validate_spec_nonzero_offset_value_error (s : OHLCVAggSpec) :
  (s.(timeframe) = MIN_1 \/ s.(timeframe) = MIN_5) -> s.(offset) <> 0 ->
  validate_ohlcvaggspec s = Err ValueError.
Proof.
  intros Htf Hoff. unfold validate_ohlcvaggspec.
  apply supported_tf_existsb in Htf. rewrite Htf. cbn [negb].
  destruct (offset s <? 0) eqn:En; [reflexivity|].
  apply Z.ltb_ge in En. replace (0 <? offset s) with true by (symmetry; apply Z.ltb_lt; lia).
  reflexivity.
Qed.

Lemma validate_spec_nonzero_offset_value_error_witness :
  validate_ohlcvaggspec (mkSpec "AAPL" MIN_5 (- MIN_1)) = Err ValueError.
Proof. apply validate_spec_nonzero_offset_value_error; cbn; [right; reflexivity | discriminate]. Defined.

(** The bar constructor rejects with ValueError any bar whose
    [end_ts - start_ts] differs from its timeframe, before looking at
    volume, transactions or avg_size. *)
Theorem construct_duration_checked (x : OHLCVAgg) :
  validate_ohlcvaggspec x.(spec) = Ok tt ->
  x.(end_ts) - x.(start_ts) <> x.(spec).(timeframe) ->
  construct_ohlcvagg x = Err ValueError.
Proof.
  intros Hs Hd. unfold construct_ohlcvagg. rewrite Hs. cbn [bind].
  unfold validate_ohlcvagg. apply Z.eqb_neq in Hd. rewrite Hd. reflexivity.
Qed.

Lemma construct_duration_checked_witness :
  construct_ohlcvagg (mkAgg (mkSpec "AAPL" MIN_5 0) 0 MIN_1 1 1 1 1 0 0 0 0) = Err ValueError.
Proof. apply construct_duration_checked; vm_compute; [reflexivity | discriminate]. Defined.

Lemma construct_ok_eq (x y : OHLCVAgg) : construct_ohlcvagg x = Ok y -> y = x.
Proof.
  unfold construct_ohlcvagg. intros H. inv_bind H. inv_bind H. injection H. auto.
Qed.

Lemma construct_ok_valid (x : OHLCVAgg) (y : OHLCVAgg) :
  construct_ohlcvagg x = Ok y ->
  validate_ohlcvaggspec x.(spec) = Ok tt /\ validate_ohlcvagg x = Ok tt.
Proof.
  unfold construct_ohlcvagg. intros H.
  destruct (validate_ohlcvaggspec (spec x)) as [[]|]; cbn [bind] in H; [|discriminate H].
  destruct (validate_ohlcvagg x) as [[]|]; cbn [bind] in H; [|discriminate H].
  split; reflexivity.
Qed.

(** Every bar [create] returns has offset 0, a supported timeframe, the
    given start and prices, and [end_ts = start_ts + timeframe]; an explicit
    [end_ts] is accepted only when it equals [start_ts + timeframe]. *)
Theorem create_result_shape (tk : string) (tf st : Z) (o h l c v vw : Q)
    (e : option Z) (tr av : option Q) (x : OHLCVAgg) :
  create tk tf st o h l c v vw e tr av = Ok x ->
  x.(spec) = mkSpec tk tf 0 /\ (tf = MIN_1 \/ tf = MIN_5) /\
  x.(start_ts) = st /\ x.(end_ts) = st + tf /\
  (forall e', e = Some e' -> e' = st + tf) /\
  x.(open) = o /\ x.(high) = h /\ x.(low) = l /\ x.(close) = c /\
  x.(volume) = v /\ x.(vwap) = vw.
Proof.
  unfold create. intros H. inv_bind H.
  pose proof (construct_ok_valid _ _ H) as [Hs Hb]. apply construct_ok_eq in H. subst x.
  cbn [spec timeframe offset start_ts end_ts open high low close volume vwap] in *.
  apply validate_spec_ok_iff in Hs as [Htf _]. cbn [timeframe] in Htf.
  unfold validate_ohlcvagg in Hb. cbn [spec timeframe start_ts end_ts] in Hb.
  destruct (_ - st =? tf) eqn:Ed; [|discriminate Hb]. apply Z.eqb_eq in Ed.
  split; [reflexivity|]. split; [exact Htf|]. split; [reflexivity|].
  split; [destruct e; lia|]. split; [intros e' He; subst e; lia|].
  repeat split.
Qed.

Lemma create_result_shape_witness :
  exists x, create "AAPL" MIN_1 0 10 11 9 10 100 10 None (Some 5%Q) None = Ok x /\ x.(end_ts) = MIN_1.
Proof.
  eexists. assert (H : create "AAPL" MIN_1 0 10 11 9 10 100 10 None (Some 5%Q) None
                       = Ok (mkAgg (mkSpec "AAPL" MIN_1 0) 0 MIN_1 10 11 9 10 100 10 5 (5 / 100)))
    by (vm_compute; reflexivity).
  split; [exact H|]. exact (proj1 (proj2 (proj2 (proj2 (create_result_shape _ _ _ _ _ _ _ _ _ _ _ _ _ H))))).
Defined.







Lemma insert_by_start_perm (b : OHLCVAgg) (l : list OHLCVAgg) :
  Permutation (insert_by_start b l) (b :: l).
Proof.
  induction l as [|x r IH]; cbn [insert_by_start]; [reflexivity|].
  destruct (start_ts x <? start_ts b); [|reflexivity].
  etransitivity; [apply perm_skip, IH | apply perm_swap].
Qed.

Lemma sort_index_perm (l : list OHLCVAgg) : Permutation (sort_index l) l.
Proof.
  induction l as [|x r IH]; cbn [sort_index]; [reflexivity|].
  etransitivity; [apply insert_by_start_perm | apply perm_skip, IH].
Qed.

Lemma insert_by_start_sorted (b : OHLCVAgg) (l : list OHLCVAgg) :
  StronglySorted (fun a c => start_ts a <= start_ts c) l ->
  StronglySorted (fun a c => start_ts a <= start_ts c) (insert_by_start b l).
Proof.
  induction l as [|x r IH]; intros Hs; cbn [insert_by_start].
  - repeat constructor.
  - inversion Hs as [|? ? Hr Hx]; subst.
    destruct (start_ts x <? start_ts b) eqn:E.
    + apply Z.ltb_lt in E. constructor; [apply IH, Hr|].
      apply Forall_forall. intros y Hy.
      apply (Permutation_in _ (insert_by_start_perm b r)) in Hy as [<-|Hy]; [lia|].
      rewrite Forall_forall in Hx. apply Hx, Hy.
    + apply Z.ltb_ge in E. constructor; [exact Hs|].
      constructor; [exact E|]. rewrite Forall_forall in Hx |- *.
      intros y Hy. specialize (Hx y Hy). lia.
Qed.

Lemma sort_index_sorted_le (l : list OHLCVAgg) :
  StronglySorted (fun a c => start_ts a <= start_ts c) (sort_index l).
Proof.
  induction l as [|x r IH]; cbn [sort_index]; [constructor|].
  apply insert_by_start_sorted, IH.
Qed.

Lemma sorted_le_nodup_lt (s : list OHLCVAgg) :
  StronglySorted (fun a c => start_ts a <= start_ts c) s -> NoDup (map start_ts s) ->
  StronglySorted starts_before s.
Proof.
  induction 1 as [|x r Hr IH Hx]; intros Hn; constructor.
  - apply IH. inversion Hn; assumption.
  - inversion Hn as [|? ? Hnin _]; subst. rewrite Forall_forall in Hx |- *.
    intros y Hy. unfold starts_before. specialize (Hx y Hy).
    assert (start_ts x <> start_ts y); [|lia].
    intros He. apply Hnin. rewrite He. apply in_map, Hy.
Qed.

Lemma sorted_perm_eq (a b : list OHLCVAgg) :
  StronglySorted starts_before a -> StronglySorted starts_before b ->
  Permutation a b -> a = b.
Proof.
  revert b. induction a as [|x a IH]; intros b Ha Hb Hp.
  - symmetry. apply Permutation_nil, Hp.
  - destruct b as [|y b]; [apply Permutation_sym, Permutation_nil in Hp; discriminate|].
    inversion Ha as [|? ? Ha' Hx]; inversion Hb as [|? ? Hb' Hy]; subst.
    assert (x = y) as <-.
    { pose proof (Permutation_in x Hp (or_introl eq_refl)) as [->|Hxb]; [reflexivity|].
      pose proof (Permutation_in y (Permutation_sym Hp) (or_introl eq_refl)) as [->|Hya];
        [reflexivity|].
      rewrite Forall_forall in Hx, Hy. specialize (Hx y Hya). specialize (Hy x Hxb).
      unfold starts_before in *. lia. }
    f_equal. apply IH; [exact Ha' | exact Hb' | eapply Permutation_cons_inv, Hp].
Qed.

Lemma label_count_perm (t : Z) (l l' : list OHLCVAgg) :
  Permutation l l' -> label_count t l = label_count t l'.
Proof.
  unfold label_count. induction 1; cbn [filter]; try congruence.
  - destruct (start_ts x =? t); cbn [length]; congruence.
  - destruct (start_ts x =? t), (start_ts y =? t); reflexivity.
Qed.

Lemma last_in (s : list OHLCVAgg) (d : OHLCVAgg) : s <> [] -> In (last s d) s.
Proof.
  induction s as [|x r IH]; intros Hs; [congruence|].
  destruct r as [|y r]; [left; reflexivity|]. right. apply IH. discriminate.
Qed.

Lemma sorted_last_max (s : list OHLCVAgg) (d b : OHLCVAgg) :
  StronglySorted (fun a c => start_ts a <= start_ts c) s -> In b s ->
  start_ts b <= start_ts (last s d).
Proof.
  induction 1 as [|x r Hr IH Hx]; intros Hb; [destruct Hb|].
  destruct r as [|y r'].
  - destruct Hb as [<-|[]]. cbn. lia.
  - change (last (x :: y :: r') d) with (last (y :: r') d).
    destruct Hb as [<-|Hb]; [|apply IH, Hb].
    rewrite Forall_forall in Hx. apply Hx, last_in. discriminate.
Qed.

(** The result of [create_from_aggs] does not depend on the order of the
    input bars when their start times are distinct: the bars are sorted by
    start time first. *)
Theorem create_from_aggs_order_independent (sp : OHLCVAggSpec) (l l' : list OHLCVAgg) :
  Permutation l l' -> NoDup (map start_ts l) ->
  create_from_aggs sp l = create_from_aggs sp l'.
Proof.
  intros Hp Hn. unfold create_from_aggs.
  replace (sort_index l') with (sort_index l); [reflexivity|].
  assert (Hn' : NoDup (map start_ts l')) by (eapply Permutation_NoDup; [apply Permutation_map, Hp | exact Hn]).
  apply sorted_perm_eq.
  - apply sorted_le_nodup_lt; [apply sort_index_sorted_le|].
    eapply Permutation_NoDup; [apply Permutation_map, Permutation_sym, sort_index_perm | exact Hn].
  - apply sorted_le_nodup_lt; [apply sort_index_sorted_le|].
    eapply Permutation_NoDup; [apply Permutation_map, Permutation_sym, sort_index_perm | exact Hn'].
  - etransitivity; [apply sort_index_perm|]. etransitivity; [exact Hp|].
    apply Permutation_sym, sort_index_perm.
Qed.

Lemma create_from_aggs_order_independent_witness :
  create_from_aggs (mkSpec "AAPL" MIN_1 0) [m1_bar 0 100 50; m1_bar 1 100 50]
  = create_from_aggs (mkSpec "AAPL" MIN_1 0) [m1_bar 1 100 50; m1_bar 0 100 50].
Proof.
  apply create_from_aggs_order_independent; [apply perm_swap|].
  vm_compute. constructor; [intros [H|[]]; discriminate H|]. constructor; [intros []|constructor].
Defined.

Lemma sort_index_cons (l : list OHLCVAgg) (first : OHLCVAgg) (rest : list OHLCVAgg) :
  sort_index l = first :: rest ->
  In first l /\ In (last (first :: rest) first) l /\
  forall b, In b l -> start_ts first <= start_ts b <= start_ts (last (first :: rest) first).
Proof.
  intros Hs. pose proof (sort_index_perm l) as Hp. pose proof (sort_index_sorted_le l) as Hso.
  rewrite Hs in Hp, Hso.
  split; [apply (Permutation_in _ Hp); left; reflexivity|].
  split; [apply (Permutation_in _ Hp), last_in; discriminate|].
  intros b Hb. apply (Permutation_in _ (Permutation_sym Hp)) in Hb.
  split; [|apply sorted_last_max; assumption].
  destruct Hb as [<-|Hb]; [lia|].
  inversion Hso as [|? ? _ Hf]; subst. rewrite Forall_forall in Hf. apply Hf, Hb.
Qed.

Lemma create_from_aggs_ok_span (sp : OHLCVAggSpec) (l : list OHLCVAgg) (x : OHLCVAgg) :
  create_from_aggs sp l = Ok x ->
  x.(spec) = sp /\ validate_ohlcvaggspec sp = Ok tt /\
  x.(end_ts) - x.(start_ts) = sp.(timeframe) /\
  (exists b, In b l /\ b.(start_ts) = x.(start_ts)) /\
  (exists b, In b l /\ b.(start_ts) = x.(end_ts)) /\
  (forall b, In b l -> x.(start_ts) <= b.(start_ts) <= x.(end_ts)).
Proof.
  unfold create_from_aggs. intros H.
  destruct (sort_index l) as [|first rest] eqn:Hs; [discriminate H|].
  destruct (1 <? label_count _ _)%nat in H; [discriminate H|].
  destruct (1 <? label_count _ _)%nat in H; [discriminate H|].
  pose proof (construct_ok_valid _ _ H) as [Hv Hb]. apply construct_ok_eq in H. subst x.
  destruct sp as [tk tf off]. cbn [spec ticker timeframe offset start_ts end_ts] in *.
  unfold validate_ohlcvagg in Hb. cbn [spec timeframe start_ts end_ts] in Hb.
  destruct (_ - _ =? tf) eqn:Ed in Hb; [|discriminate Hb]. apply Z.eqb_eq in Ed.
  destruct (sort_index_cons _ _ _ Hs) as (Hf & Hl & Hall).
  split; [reflexivity|]. split; [exact Hv|]. split; [exact Ed|].
  split; [exists first; split; [exact Hf | reflexivity]|].
  split; [eexists; split; [exact Hl | reflexivity]|]. exact Hall.
Qed.

(** A bar built by [create_from_aggs] carries the given spec, which must
    be valid; its [start_ts] and [end_ts] are the least and the greatest
    start time of the input bars, and they lie exactly one timeframe of the
    spec apart. *)
Theorem create_from_aggs_span (sp : OHLCVAggSpec) (l : list OHLCVAgg) (x : OHLCVAgg) :
  create_from_aggs sp l = Ok x ->
  x.(spec) = sp /\ validate_ohlcvaggspec sp = Ok tt /\
  x.(end_ts) - x.(start_ts) = sp.(timeframe) /\
  (exists b, In b l /\ b.(start_ts) = x.(start_ts)) /\
  (exists b, In b l /\ b.(start_ts) = x.(end_ts)) /\
  (forall b, In b l -> x.(start_ts) <= b.(start_ts) <= x.(end_ts)).
Proof. exact (create_from_aggs_ok_span sp l x). Qed.

Lemma create_from_aggs_span_witness :
  exists x, create_from_aggs (mkSpec "AAPL" MIN_5 0) [m1_bar 5 100 50; m1_bar 0 100 50] = Ok x /\
            x.(end_ts) - x.(start_ts) = MIN_5.
Proof.
  eexists. split; [vm_compute; reflexivity|].
  match goal with |- end_ts ?x - _ = _ =>
    assert (H : create_from_aggs (mkSpec "AAPL" MIN_5 0) [m1_bar 5 100 50; m1_bar 0 100 50] = Ok x)
      by (vm_compute; reflexivity) end.
  exact (proj1 (proj2 (proj2 (create_from_aggs_span _ _ _ H)))).
Defined.

(** [create_from_aggs] never succeeds on bars that all share one start
    time, in particular on a single bar: the earliest and latest start
    times are then equal, while a valid spec has a non-zero timeframe. *)
Theorem create_from_aggs_one_start_fails (sp : OHLCVAggSpec) (l : list OHLCVAgg) (t : Z) :
  (forall b, In b l -> b.(start_ts) = t) -> is_err (create_from_aggs sp l) = true.
Proof.
  intros Ht. destruct (create_from_aggs sp l) as [x|e] eqn:H; [|reflexivity].
  destruct (create_from_aggs_ok_span _ _ _ H) as (_ & Hv & Hd & [b1 [H1 E1]] & [b2 [H2 E2]] & _).
  apply validate_spec_ok_iff in Hv as [Htf _].
  apply Ht in H1, H2. unfold MIN_1, MIN_5, MICROS_PER_MINUTE in Htf. lia.
Qed.

Lemma create_from_aggs_one_start_fails_witness :
  is_err (create_from_aggs (mkSpec "AAPL" MIN_1 0) [m1_bar 3 100 50]) = true.
Proof.
  apply (create_from_aggs_one_start_fails _ _ (3 * MIN_1)).
  intros b [<-|[]]. reflexivity.
Defined.

(** When the earliest or the latest start time among the input bars is
    carried by two or more bars, [create_from_aggs] raises TypeError. *)
Theorem create_from_aggs_duplicate_extreme (sp : OHLCVAggSpec) (l : list OHLCVAgg) (b : OHLCVAgg) :
  In b l ->
  ((forall b', In b' l -> b.(start_ts) <= b'.(start_ts)) \/
   (forall b', In b' l -> b'.(start_ts) <= b.(start_ts))) ->
  (1 < label_count b.(start_ts) l)%nat ->
  create_from_aggs sp l = Err TypeError.
Proof.
  intros Hb Hext Hc. unfold create_from_aggs.
  destruct (sort_index l) as [|first rest] eqn:Hs.
  { pose proof (sort_index_perm l) as Hp. rewrite Hs in Hp.
    apply Permutation_nil in Hp. subst l. destruct Hb. }
  destruct (sort_index_cons _ _ _ Hs) as (Hf & Hl & Hall).
  assert (Hlc : forall t, label_count t (first :: rest) = label_count t l)
    by (intros t; rewrite <- Hs; apply label_count_perm, sort_index_perm).
  rewrite !Hlc.
  destruct Hext as [Hmin|Hmax].
  - replace (start_ts first) with (start_ts b)
      by (specialize (Hmin _ Hf); specialize (Hall _ Hb); lia).
    apply Nat.ltb_lt in Hc. rewrite Hc. reflexivity.
  - destruct (1 <? label_count (start_ts first) l)%nat; [reflexivity|].
    replace (start_ts (last (first :: rest) first)) with (start_ts b)
      by (specialize (Hmax _ Hl); specialize (Hall _ Hb); lia).
    apply Nat.ltb_lt in Hc. rewrite Hc. reflexivity.
Qed.

Lemma create_from_aggs_duplicate_extreme_witness :
  create_from_aggs (mkSpec "AAPL" MIN_1 0) [m1_bar 0 100 50; m1_bar 1 100 50; m1_bar 1 200 80]
  = Err TypeError.
Proof.
  apply (create_from_aggs_duplicate_extreme _ _ (m1_bar 1 100 50)).
  - right; left; reflexivity.
  - right. intros b' Hb'. destruct Hb' as [<-|[<-|[<-|[]]]]; vm_compute; discriminate.
  - vm_compute. constructor.
Defined.

Lemma check_fold_ok (df : DataFrame) (l : list string) (b : bool) :
  foldM (fun ok c => v <- get_col df c ;; Ok (ok && all_nonnull v)) l b = Ok true ->
  b = true /\ forall c, In c l -> exists v, get_col df c = Ok v /\ all_nonnull v = true.
Proof.
  revert b. induction l as [|c l IH]; intros b H; cbn [foldM] in H.
  - injection H as ->. split; [reflexivity | intros c []].
  - destruct (get_col df c) as [v|] eqn:Ev; cbn [bind] in H; [|discriminate H].
    destruct (IH _ H) as [Hb Hall].
    apply andb_true_iff in Hb as [-> Hv]. split; [reflexivity|].
    intros c' [<-|Hc']; [exists v; split; assumption | apply Hall, Hc'].
Qed.

Lemma col_pos_in (c : string) (cols : list string) (k : nat) :
  col_pos c cols = Some k -> In c cols.
Proof. intros H. apply col_pos_nth in H. eapply nth_error_In, H. Qed.

(** Whenever [fill_ohlcv] succeeds, its result has the zone, the columns
    and the index of its input, every column of OHLCV_CNAMES is among them,
    and none of those columns holds a null. *)
Theorem fill_ohlcv_result_complete (cc fz : list string) (d d' : DataFrame) :
  fill_ohlcv_with cc fz d = Ok d' ->
  same_shape d d' /\
  forall c, In c OHLCV_CNAMES ->
    In c d.(columns) /\ exists v, get_col d' c = Ok v /\ all_nonnull v = true.
Proof.
  intros H. pose proof (fill_ohlcv_shape _ _ _ _ H) as Hs. split; [exact Hs|].
  unfold fill_ohlcv_with in H.
  inv_bind H. inv_bind H. inv_bind H. inv_bind H. inv_bind H. inv_bind H. inv_bind H. inv_bind H.
  match goal with E : foldM _ OHLCV_CNAMES true = Ok ?b |- _ =>
    destruct b; [injection H as <-|discriminate H]; destruct (check_fold_ok _ _ _ E) as [_ Hall] end.
  intros c Hc. destruct (Hall c Hc) as [v [Hv Hn]]. split; [|exists v; split; assumption].
  destruct (get_col_pos _ _ _ Hv) as [k Hk]. destruct Hs as [_ [Hcol _]].
  rewrite Hcol in Hk. exact (col_pos_in _ _ _ Hk).
Qed.

Lemma fill_ohlcv_result_complete_witness :
  exists d', fill_ohlcv (first_row_nulled "AAPL") = Ok d' /\
             exists v, get_col d' "open" = Ok v /\ all_nonnull v = true.
Proof.
  eexists. split; [vm_compute; reflexivity|].
  match goal with |- exists v, get_col ?x _ = _ /\ _ =>
    assert (H : fill_ohlcv (first_row_nulled "AAPL") = Ok x) by (vm_compute; reflexivity) end.
  exact (proj2 (proj2 (fill_ohlcv_result_complete _ _ _ _ H) "open"%string (or_introl eq_refl))).
Defined.

Lemma foldM_fix {A B : Type} (f : A -> B -> result A) (l : list B) (a : A) :
  (forall x, In x l -> f a x = Ok a) -> foldM f l a = Ok a.
Proof.
  induction l as [|x l IH]; intros H; cbn [foldM]; [reflexivity|].
  rewrite (H x (or_introl eq_refl)). cbn [bind]. apply IH. intros y Hy. apply H. right. exact Hy.
Qed.

Lemma set_col_get_same (d : DataFrame) (c : string) (k : nat) :
  col_pos c d.(columns) = Some k -> set_col d c (map (cell_at k) d.(rows)) = d.
Proof.
  intros Hk. unfold set_col. rewrite Hk. rewrite set_cells_same. destruct d. reflexivity.
Qed.

Lemma col_full_somes (d : DataFrame) (c : string) (k : nat) :
  col_pos c d.(columns) = Some k ->
  (forall r, In r d.(rows) -> row_get d.(columns) (snd r) c <> None) ->
  somes (map (cell_at k) d.(rows)).
Proof.
  intros Hk H. unfold somes. apply Forall_map, Forall_forall. intros r Hr.
  unfold cell_at. rewrite <- (row_get_pos _ _ _ _ Hk). apply H, Hr.
Qed.

Lemma copy_constant_uniform (d : DataFrame) (c : string) (k : nat) (v : cell) :
  col_pos c d.(columns) = Some k -> d.(rows) <> [] ->
  (forall r, In r d.(rows) -> row_get d.(columns) (snd r) c = Some v) ->
  copy_constant_col_to_all_rows d c = Ok d.
Proof.
  intros Hk Hne H. unfold copy_constant_col_to_all_rows, get_col. rewrite Hk. cbn [bind].
  assert (Heq : map (cell_at k) d.(rows) = map (fun _ => Some v) d.(rows)).
  { apply map_ext_in. intros r Hr. unfold cell_at. rewrite <- (row_get_pos _ _ _ _ Hk). apply H, Hr. }
  rewrite Heq, nonnull_values_const.
  replace (length (rows d)) with (S (pred (length (rows d))))
    by (destruct (rows d); [contradiction | reflexivity]).
  rewrite distinct_cells_repeat, map_map, <- Heq. f_equal. apply set_col_get_same, Hk.
Qed.

Lemma first_nonnull_somes (s : list (option cell)) :
  somes s -> s <> [] -> exists x, first_nonnull s = Ok x.
Proof.
  intros H Hne. destruct H as [|o s Ho _]; [contradiction|].
  destruct o as [x|]; [exists x; reflexivity | contradiction].
Qed.

Lemma check_fold_true (df : DataFrame) (l : list string) :
  (forall c, In c l -> exists v, get_col df c = Ok v /\ all_nonnull v = true) ->
  foldM (fun ok c => v <- get_col df c ;; Ok (ok && all_nonnull v)) l true = Ok true.
Proof.
  induction l as [|c l IH]; intros H; cbn [foldM]; [reflexivity|].
  destruct (H c (or_introl eq_refl)) as [v [Hv Hn]]. rewrite Hv. cbn [bind]. rewrite Hn.
  cbn [andb]. apply IH. intros c' Hc'. apply H. right. exact Hc'.
Qed.

Lemma fill_fixed_point (cc fz : list string) (d : DataFrame) :
  d.(rows) <> [] ->
  (forall c, In c cc -> has_col d c = true ->
     exists v, forall r, In r d.(rows) -> row_get d.(columns) (snd r) c = Some v) ->
  (forall c, In c fz -> has_col d c = true ->
     forall r, In r d.(rows) -> row_get d.(columns) (snd r) c <> None) ->
  (forall c, In c OHLCV_CNAMES -> has_col d c = true /\
     forall r, In r d.(rows) -> row_get d.(columns) (snd r) c <> None) ->
  fill_ohlcv_with cc fz d = Ok d.
Proof.
  intros Hne Hcc Hfz Hoh.
  assert (Hfull : forall c, In c OHLCV_CNAMES -> exists k, col_pos c d.(columns) = Some k /\
                    get_col d c = Ok (map (cell_at k) d.(rows)) /\ somes (map (cell_at k) d.(rows))).
  { intros c Hc. destruct (Hoh c Hc) as [Hh Hr]. destruct (has_col_pos _ _ Hh) as [k Hk].
    exists k. split; [exact Hk|]. split; [unfold get_col; rewrite Hk; reflexivity|].
    exact (col_full_somes _ _ _ Hk Hr). }
  unfold fill_ohlcv_with.
  rewrite foldM_fix; cbn [bind].
  2:{ intros c Hc. destruct (has_col d c) eqn:Eh; [|reflexivity].
      destruct (has_col_pos _ _ Eh) as [k Hk]. destruct (Hcc c Hc Eh) as [v Hv].
      exact (copy_constant_uniform _ _ _ _ Hk Hne Hv). }
  rewrite foldM_fix; cbn [bind].
  2:{ intros c Hc. destruct (has_col d c) eqn:Eh; [|reflexivity].
      destruct (has_col_pos _ _ Eh) as [k Hk]. unfold get_col at 1. rewrite Hk. cbn [bind].
      rewrite fillna_value_somes by exact (col_full_somes _ _ _ Hk (Hfz c Hc Eh)).
      f_equal. apply set_col_get_same, Hk. }
  destruct (Hfull "close"%string) as [kc [Hkc [Gc Sc]]]; [cbn; tauto|].
  destruct (Hfull "open"%string) as [ko [Hko [Go So]]]; [cbn; tauto|].
  rewrite Gc. cbn [bind]. unfold ffill. rewrite ffill_from_somes by exact Sc.
  rewrite (set_col_get_same _ _ _ Hkc), Go. cbn [bind].
  destruct (first_nonnull_somes _ So) as [x Hx].
  { destruct (rows d); [contradiction | discriminate]. }
  rewrite Hx. cbn [bind]. rewrite Gc. cbn [bind].
  rewrite fillna_value_somes by exact Sc. rewrite (set_col_get_same _ _ _ Hkc).
  rewrite foldM_fix; cbn [bind].
  2:{ intros c Hc. destruct (Hfull c) as [k [Hk [Gk Sk]]]; [cbn in Hc |- *; tauto|].
      rewrite Gk. cbn [bind]. rewrite Gc. cbn [bind].
      rewrite fillna_series_somes by exact Sk. f_equal. apply set_col_get_same, Hk. }
  rewrite check_fold_true; [reflexivity|].
  intros c Hc. destruct (Hfull c Hc) as [k [_ [Gk Sk]]]. exists (map (cell_at k) d.(rows)).
  split; [exact Gk | apply all_nonnull_somes, Sk].
Qed.

(** [fill_ohlcv] returns a complete table unchanged: when every constant
    column present holds one value in every row, every zero-fill column
    present and every column of OHLCV_CNAMES (all of which are present) is
    free of nulls, and the table has a row, each step of [fill_ohlcv] is
    the identity. *)
Theorem fill_ohlcv_complete_unchanged (cc fz : list string) (d : DataFrame) :
  d.(rows) <> [] ->
  (forall c, In c cc -> has_col d c = true ->
     exists v, forall r, In r d.(rows) -> row_get d.(columns) (snd r) c = Some v) ->
  (forall c, In c fz -> has_col d c = true ->
     forall r, In r d.(rows) -> row_get d.(columns) (snd r) c <> None) ->
  (forall c, In c OHLCV_CNAMES -> has_col d c = true /\
     forall r, In r d.(rows) -> row_get d.(columns) (snd r) c <> None) ->
  fill_ohlcv_with cc fz d = Ok d.
Proof. exact (fill_fixed_point cc fz d). Qed.

Lemma fill_ohlcv_complete_unchanged_witness : fill_ohlcv complete_df = Ok complete_df.
Proof.
  apply fill_ohlcv_complete_unchanged.
  - discriminate.
  - intros c Hc Hh. cbn in Hc. decompose [or False] Hc; subst c.
    + exists (CStr "AAPL"). intros r Hr. cbn in Hr. decompose [or False] Hr; subst r; reflexivity.
    + vm_compute in Hh. discriminate Hh.
  - intros c Hc _ r Hr. cbn in Hc, Hr.
    decompose [or False] Hc; decompose [or False] Hr; subst c r; vm_compute; discriminate.
  - intros c Hc. cbn in Hc. split.
    + decompose [or False] Hc; subst c; reflexivity.
    + intros r Hr. cbn in Hr.
      decompose [or False] Hc; decompose [or False] Hr; subst c r; vm_compute; discriminate.
Defined.

Lemma fold_keep (f : DataFrame -> string -> result DataFrame) (S : list string) (d d' : DataFrame) :
  (forall x c y, f x c = Ok y ->
     tz y = tz x /\ columns y = columns x /\ Forall2 (same_outside [c] (columns x)) (rows y) (rows x)) ->
  foldM f S d = Ok d' ->
  tz d' = tz d /\ columns d' = columns d /\ Forall2 (same_outside S (columns d)) (rows d') (rows d).
Proof.
  intros Hf. revert d. induction S as [|c S IH]; intros d H; cbn [foldM] in H.
  - injection H as <-. split; [reflexivity|]. split; [reflexivity|]. apply same_outside_refl_all.
  - inv_bind_as H a E. destruct (IH _ H) as [Ht [Hc Hr]]. destruct (Hf _ _ _ E) as [Ht' [Hc' Hr']].
    split; [congruence|]. split; [congruence|]. rewrite Hc' in Hr.
    refine (Forall2_compose _ _ _ _ _ _ _ Hr Hr').
    intros x y z [Hf1 H1] [Hf2 H2]. split; [congruence|].
    intros c' Hn. rewrite H1, H2; [reflexivity | |]; intros Hin; apply Hn;
      [destruct Hin as [<- | []]; left; reflexivity | right; exact Hin].
Qed.

Lemma zero_fill_keep (S : list string) (d d' : DataFrame) :
  foldM (fun d c => if has_col d c then
                      (v <- get_col d c ;; Ok (set_col d c (fillna_value (CNum 0) v)))
                    else Ok d) S d = Ok d' ->
  tz d' = tz d /\ columns d' = columns d /\ Forall2 (same_outside S (columns d)) (rows d') (rows d).
Proof.
  apply fold_keep. intros x c y H.
  destruct (has_col x c); [|injection H as <-; split; [|split]; [reflexivity | reflexivity | apply same_outside_refl_all]].
  inv_bind_as H v E. injection H as <-. destruct (get_col_pos _ _ _ E) as [k Hk].
  exact (set_col_keep _ _ _ _ Hk).
Qed.

Lemma first_nonnull_in (s : list (option cell)) (x : cell) :
  first_nonnull s = Ok x -> In (Some x) s.
Proof.
  induction s as [|o s IH]; intros H; cbn [first_nonnull] in H; [discriminate H|].
  destruct o as [y|]; [injection H as ->; left; reflexivity | right; apply IH, H].
Qed.

Lemma same_outside_back (S cols : list string) (l1 l2 : list row) (r : row) (c : string) :
  Forall2 (same_outside S cols) l1 l2 -> ~ In c S -> In r l1 ->
  exists r', In r' l2 /\ row_get cols (snd r') c = row_get cols (snd r) c.
Proof.
  intros H Hc Hr. destruct (Forall2_in_l _ _ _ _ H Hr) as [r' [Hr' [_ Hg]]].
  exists r'. split; [exact Hr'|]. symmetry. apply Hg, Hc.
Qed.

(** [fill_ohlcv] fails on every table without an observed open price: if
    it succeeds, some row of its input has a non-null open.  In particular
    it fails on a table with no rows. *)
Theorem fill_ohlcv_needs_open (d d' : DataFrame) :
  fill_ohlcv d = Ok d' ->
  exists r, In r d.(rows) /\ row_get d.(columns) (snd r) "open" <> None.
Proof.
  unfold fill_ohlcv, fill_ohlcv_with. intros H.
  inv_bind_as H a Ea. inv_bind_as H a0 Ea0. inv_bind_as H cl Ecl. inv_bind_as H op Eop.
  inv_bind_as H x Ex.
  destruct (get_col_pos _ _ _ Ecl) as [kc Hkc].
  destruct (set_col_keep a0 "close" kc (ffill cl) Hkc) as [_ [Hc1 Hr1]].
  destruct (zero_fill_keep _ _ _ Ea0) as [_ [Hc0 Hr0]].
  destruct (copy_constants_keep _ _ _ Ea) as [_ [Hc Hr]].
  apply first_nonnull_in in Ex.
  unfold get_col in Eop. destruct (col_pos "open" _) as [ko|] eqn:Hko; [|discriminate Eop].
  injection Eop as <-. apply in_map_iff in Ex as [r1 [Hx1 Hr1in]].
  destruct (same_outside_back _ _ _ _ _ "open" Hr1 ltac:(cbn; intuition discriminate) Hr1in)
    as [r2 [Hr2in Hg2]].
  destruct (same_outside_back _ _ _ _ _ "open" Hr0 ltac:(cbn; intuition discriminate) Hr2in)
    as [r3 [Hr3in Hg3]].
  destruct (same_outside_back _ _ _ _ _ "open" Hr ltac:(cbn; intuition discriminate) Hr3in)
    as [r4 [Hr4in Hg4]].
  exists r4. split; [exact Hr4in|].
  rewrite Hg4, <- Hc, Hg3, <- Hc0, Hg2.
  rewrite Hc1 in Hko. rewrite (row_get_pos _ _ _ _ Hko). unfold cell_at in Hx1. rewrite Hx1.
  discriminate.
Qed.

Lemma fill_ohlcv_needs_open_witness :
  exists d', fill_ohlcv complete_df = Ok d' /\
             exists r, In r complete_df.(rows) /\ row_get complete_df.(columns) (snd r) "open" <> None.
Proof.
  eexists. split; [vm_compute; reflexivity|].
  assert (H : fill_ohlcv complete_df = Ok complete_df) by (vm_compute; reflexivity).
  exact (fill_ohlcv_needs_open _ _ H).
Defined.

Lemma concat_split_index (d aft : DataFrame) (a : Z) :
  StronglySorted Z.lt (index d) -> In a (index d) -> index aft = index (loc_from a d) ->
  index (concat_rows (drop_last_row (loc_upto a d)) aft) = index d.
Proof.
  intros Hs Ha Haft. unfold index in Ha. apply in_map_iff in Ha as [x [Hxa Hx]].
  destruct (@in_split row x (rows d) Hx) as [pre [post Esplit]].
  pose proof Hs as Hs'. unfold index in Hs'. rewrite Esplit in Hs'.
  destruct (sorted_split _ _ _ Hs') as [Hpre Hpost]. rewrite Hxa in Hpre, Hpost.
  destruct (filter_split _ _ _ _ Hpre Hxa Hpost) as [Fle [Fge _]].
  transitivity (map fst (removelast (filter (fun r => fst r <=? a) (rows d))) ++ index aft).
  { unfold index, concat_rows, drop_last_row, loc_upto. cbn [rows]. apply map_app. }
  rewrite Haft. transitivity (map fst pre ++ map fst (x :: post)).
  - f_equal.
    + f_equal. rewrite Esplit.
      etransitivity; [apply (f_equal (@removelast row)); exact Fle | apply removelast_last].
    + unfold index, loc_from. cbn [rows]. f_equal. rewrite Esplit. exact Fge.
  - unfold index. rewrite Esplit, map_app. reflexivity.
Qed.

Lemma get_first_nonnull_ts_in (d : DataFrame) (a : Z) :
  get_first_nonnull_ts d = Ok a -> In a (index d).
Proof.
  unfold get_first_nonnull_ts. intros H.
  destruct (get_first_nonnull_ts_split _ _ H) as [pre [x [post [E [Hx _]]]]].
  unfold index. rewrite E, map_app. apply in_or_app. right. left. exact Hx.
Qed.

(** On every path, a table returned by [clean_ohlcv] keeps the zone and
    the columns of its input, and its index is the grid built by the
    reindexing step, in strictly increasing order. *)
Theorem clean_ohlcv_shape (df : DataFrame) (tf : Z) (start end_ : option Z)
    (bt : option (Z * Z)) (bti : inclusive) (rmd : bool) (thr : option Z)
    (ccols : list string) (out : DataFrame) :
  clean_ohlcv df tf start end_ bt bti rmd thr ccols = Ok out ->
  tz out = tz df /\ columns out = columns df /\ StronglySorted Z.lt (index out) /\
  exists r, reindex_timeseries_df df tf start end_ bt bti rmd Both = Ok r /\ index out = index r.
Proof.
  unfold clean_ohlcv. intros H.
  destruct (reindex_timeseries_df df tf start end_ bt bti rmd Both) as [r|] eqn:Er in H;
    cbn [bind] in H; [|discriminate H].
  destruct (reindex_shape _ _ _ _ _ _ _ _ _ Er) as [Htz [Hcols Hsort]].
  assert (Hgoal : forall o, tz o = tz r -> columns o = columns r -> index o = index r ->
            tz o = tz df /\ columns o = columns df /\ StronglySorted Z.lt (index o) /\
            exists r', reindex_timeseries_df df tf start end_ bt bti rmd Both = Ok r' /\ index o = index r').
  { intros o Ht Hc Hi. split; [congruence|]. split; [congruence|]. split; [rewrite Hi; exact Hsort|].
    exists r. split; [exact Er | exact Hi]. }
  destruct (no_nulls r); [injection H as <-; apply Hgoal; reflexivity|].
  inv_bind_as H a Ea. inv_bind_as H dC EC.
  destruct (copy_constants_keep _ _ _ EC) as [HtzC [HcolC HrelC]].
  pose proof (same_outside_fst _ _ _ _ HrelC) as HidxC. fold (index dC) (index r) in HidxC.
  destruct (rows dC) as [|r0 rs] eqn:ErC; [discriminate H|].
  destruct (_ <=? _) in H.
  - destruct (fill_ohlcv_shape _ _ _ _ H) as [Ht [Hc Hi]].
    apply Hgoal; congruence.
  - inv_bind_as H aft EF. destruct (no_nulls _) in H; [|discriminate H]. injection H as <-.
    destruct (fill_ohlcv_shape _ _ _ _ EF) as [_ [_ HidxF]].
    apply Hgoal; [cbn [concat_rows tz drop_last_row loc_upto]; exact HtzC
                 |cbn [concat_rows columns drop_last_row loc_upto]; exact HcolC|].
    rewrite <- HidxC. apply concat_split_index; [rewrite HidxC; exact Hsort| |exact HidxF].
    rewrite HidxC. apply get_first_nonnull_ts_in, Ea.
Qed.

Lemma clean_ohlcv_shape_witness :
  exists out, clean_ohlcv late_df MIN_5 (Some t0930) (Some (t0930 + 15 * MIN_5)) None Both true
                None default_constant_cnames = Ok out /\
              StronglySorted Z.lt (index out).
Proof.
  eexists. split; [vm_compute; reflexivity|].
  match goal with |- StronglySorted _ (index ?x) =>
    assert (H : clean_ohlcv late_df MIN_5 (Some t0930) (Some (t0930 + 15 * MIN_5)) None Both true
                  None default_constant_cnames = Ok x) by (vm_compute; reflexivity) end.
  exact (proj1 (proj2 (proj2 (clean_ohlcv_shape _ _ _ _ _ _ _ _ _ _ H)))).
Defined.

Lemma set_col_wf (d : DataFrame) (c : string) (k : nat) (vals : list (option cell)) :
  rows_wf d -> col_pos c d.(columns) = Some k -> rows_wf (set_col d c vals).
Proof.
  unfold rows_wf, set_col. intros Hw Hk. rewrite Hk. cbn [rows columns].
  revert vals. induction Hw as [|r rs Hr Hrs IH]; intros [|v vs]; cbn [set_cells].
  - constructor.
  - constructor.
  - constructor; assumption.
  - constructor; [cbn [snd]; rewrite replace_nth_length; exact Hr | apply IH].
Qed.

Lemma set_col_all_same (P : option cell -> Prop) (d : DataFrame) (c : string) (k : nat)
    (vals : list (option cell)) :
  rows_wf d -> col_pos c d.(columns) = Some k -> length vals = length d.(rows) ->
  Forall P vals -> col_all P (set_col d c vals) c.
Proof.
  unfold rows_wf, col_all, set_col. intros Hw Hk Hl Hv. rewrite Hk. cbn [rows columns].
  revert vals Hl Hv. induction Hw as [|r rs Hr Hrs IH]; intros vals Hl Hv;
    destruct vals as [|v vs]; try discriminate Hl; cbn [set_cells]; [intros _ []|].
  inversion Hv as [|? ? Hpv Hvs]; subst. intros x [<-|Hx].
  - cbn [snd]. rewrite (row_get_replace _ _ c c k v Hk Hr), String.eqb_refl. exact Hpv.
  - apply (IH vs); [cbn in Hl; lia | exact Hvs | exact Hx].
Qed.

Lemma col_all_other (P : option cell -> Prop) (d : DataFrame) (c c' : string) (k : nat)
    (vals : list (option cell)) :
  col_pos c' d.(columns) = Some k -> c' <> c -> col_all P d c -> col_all P (set_col d c' vals) c.
Proof.
  intros Hk Hne H r Hr. destruct (set_col_keep d c' k vals Hk) as [_ [Hc Hrel]].
  rewrite Hc. destruct (Forall2_in_l _ _ _ _ Hrel Hr) as [y [Hy [_ Hs]]].
  rewrite Hs; [apply H, Hy|]. intros [He|[]]. congruence.
Qed.

(** A step that overwrites column [c'] with values equal to the old ones
    whenever these have no null keeps the rows well formed and keeps any
    non-null property of column [c]. *)
Lemma step_keep (P : option cell -> Prop) (x : DataFrame) (c c' : string)
    (old vals : list (option cell)) :
  (forall o, P o -> o <> None) -> rows_wf x -> col_all P x c ->
  get_col x c' = Ok old -> (somes old -> vals = old) ->
  rows_wf (set_col x c' vals) /\ col_all P (set_col x c' vals) c.
Proof.
  intros HP Hw Hi Hg Hid. destruct (get_col_pos _ _ _ Hg) as [k Hk].
  split; [exact (set_col_wf _ _ _ _ Hw Hk)|].
  destruct (string_dec c' c) as [->|Hne]; [|exact (col_all_other _ _ _ _ _ _ Hk Hne Hi)].
  unfold get_col in Hg. rewrite Hk in Hg. injection Hg as <-.
  rewrite Hid by (apply (col_full_somes _ _ _ Hk); intros r Hr; apply HP, Hi, Hr).
  rewrite (set_col_get_same _ _ _ Hk). exact Hi.
Qed.

Lemma const_step_keep (x y : DataFrame) (c c' : string) (v : cell) :
  rows_wf x -> col_all (fun o => o = Some v) x c ->
  (if has_col x c' then copy_constant_col_to_all_rows x c' else Ok x) = Ok y ->
  rows_wf y /\ col_all (fun o => o = Some v) y c.
Proof.
  intros Hw Hi H. destruct (has_col x c'); [|injection H as <-; split; assumption].
  unfold copy_constant_col_to_all_rows in H. inv_bind_as H old Hg.
  destruct (get_col_pos _ _ _ Hg) as [k Hk].
  destruct (distinct_cells (nonnull_values old)) as [|v' [|]] eqn:Ed; try discriminate H.
  injection H as <-. split; [exact (set_col_wf _ _ _ _ Hw Hk)|].
  destruct (string_dec c' c) as [->|Hne]; [|exact (col_all_other _ _ _ _ _ _ Hk Hne Hi)].
  unfold get_col in Hg. rewrite Hk in Hg. injection Hg as <-.
  assert (Heq : map (cell_at k) x.(rows) = map (fun _ => Some v) x.(rows)).
  { apply map_ext_in. intros r Hr. unfold cell_at. rewrite <- (row_get_pos _ _ _ _ Hk). apply Hi, Hr. }
  rewrite Heq, nonnull_values_const in Ed.
  destruct (length (rows x)) as [|n]; [discriminate Ed|].
  rewrite distinct_cells_repeat in Ed. injection Ed as <-.
  rewrite Heq, map_map, <- Heq, (set_col_get_same _ _ _ Hk). exact Hi.
Qed.

Lemma foldM_establish {B : Type} (f : DataFrame -> B -> result DataFrame) (l : list B) (c : B)
    (Q I : DataFrame -> Prop) (x y : DataFrame) :
  (forall x b y, Q x -> f x b = Ok y -> Q y) ->
  (forall x b y, Q x -> I x -> f x b = Ok y -> I y) ->
  (forall x y, Q x -> f x c = Ok y -> I y) ->
  In c l -> Q x -> foldM f l x = Ok y -> I y.
Proof.
  intros HQ HI Hc. revert x. induction l as [|b l IH]; intros x Hin Hx H; [destruct Hin|].
  cbn [foldM] in H. inv_bind_as H z Ez. destruct Hin as [<-|Hin].
  - refine (proj2 (foldM_inv (fun w => Q w /\ I w) _ _ _ _ _ (conj (HQ _ _ _ Hx Ez) (Hc _ _ Hx Ez)) H)).
    intros w b' w' [Hw1 Hw2] Hs. split; [exact (HQ _ _ _ Hw1 Hs) | exact (HI _ _ _ Hw1 Hw2 Hs)].
  - exact (IH z Hin (HQ _ _ _ Hx Ez) H).
Qed.

Lemma const_step_shape (d0 x y : DataFrame) (c : string) :
  rows_wf x /\ columns x = columns d0 ->
  (if has_col x c then copy_constant_col_to_all_rows x c else Ok x) = Ok y ->
  rows_wf y /\ columns y = columns d0.
Proof.
  intros [Hw Hc] H. destruct (has_col x c); [|injection H as <-; split; assumption].
  pose proof (copy_constant_keep _ _ _ H) as [_ [Hc' _]].
  unfold copy_constant_col_to_all_rows in H. inv_bind_as H old Hg.
  destruct (get_col_pos _ _ _ Hg) as [k Hk].
  destruct (distinct_cells (nonnull_values old)) as [|v' [|]]; try discriminate H.
  injection H as <-. split; [exact (set_col_wf _ _ _ _ Hw Hk) | congruence].
Qed.

Lemma zero_step_shape (d0 x y : DataFrame) (c : string) :
  rows_wf x /\ columns x = columns d0 ->
  (if has_col x c then (v <- get_col x c ;; Ok (set_col x c (fillna_value (CNum 0) v))) else Ok x)
  = Ok y ->
  rows_wf y /\ columns y = columns d0.
Proof.
  intros [Hw Hc] H. destruct (has_col x c); [|injection H as <-; split; assumption].
  inv_bind_as H old Hg. injection H as <-. destruct (get_col_pos _ _ _ Hg) as [k Hk].
  split; [exact (set_col_wf _ _ _ _ Hw Hk)|].
  destruct (set_col_keep x c k (fillna_value (CNum 0) old) Hk) as [_ [Hc' _]]. congruence.
Qed.

Lemma zero_step_keep (P : option cell -> Prop) (x y : DataFrame) (c c' : string) :
  (forall o, P o -> o <> None) -> rows_wf x -> col_all P x c ->
  (if has_col x c' then (v <- get_col x c' ;; Ok (set_col x c' (fillna_value (CNum 0) v))) else Ok x)
  = Ok y ->
  rows_wf y /\ col_all P y c.
Proof.
  intros HP Hw Hi H. destruct (has_col x c'); [|injection H as <-; split; assumption].
  inv_bind_as H old Hg. injection H as <-.
  exact (step_keep _ _ _ _ _ _ HP Hw Hi Hg (fillna_value_somes _ _)).
Qed.

(** Running [fill_ohlcv] again on its own result, with the same column
    lists, returns that result unchanged, for any input whose rows have one
    cell per column. *)
Theorem fill_ohlcv_idempotent (cc fz : list string) (d d' : DataFrame) :
  rows_wf d -> fill_ohlcv_with cc fz d = Ok d' -> fill_ohlcv_with cc fz d' = Ok d'.
Proof.
  intros Hw H. destruct (fill_ohlcv_shape _ _ _ _ H) as [_ [HcolS HidxS]].
  unfold fill_ohlcv_with in H.
  inv_bind_as H a Ea. inv_bind_as H a0 Ea0. inv_bind_as H cl Ecl. inv_bind_as H op Eop.
  inv_bind_as H x Ex. inv_bind_as H cl2 Ecl2. inv_bind_as H a3 Ea3. inv_bind_as H chk Echk.
  destruct chk; [injection H as <-|discriminate H].
  (* shape through the constant and zero-fill loops *)
  assert (Qa : rows_wf a /\ columns a = columns d).
  { refine (foldM_inv (fun w => rows_wf w /\ columns w = columns d) _ _ _ _ _ (conj Hw eq_refl) Ea).
    intros w c w' Hq Hs.
    exact (const_step_shape _ _ _ _ Hq Hs). }
  assert (Qa0 : rows_wf a0 /\ columns a0 = columns d).
  { refine (foldM_inv (fun w => rows_wf w /\ columns w = columns d) _ _ _ _ _ Qa Ea0).
    intros w c w' Hq Hs.
    exact (zero_step_shape _ _ _ _ Hq Hs). }
  (* the steps after the zero-fill loop keep any non-null column property *)
  assert (Hpost : forall (P : option cell -> Prop) c, (forall o, P o -> o <> None) ->
            col_all P a0 c -> col_all P a3 c).
  { intros P c HP Hi.
    destruct (step_keep P a0 c "close" cl (ffill cl) HP (proj1 Qa0) Hi Ecl
                (fun Hs => ffill_from_somes None cl Hs)) as [Hw1 Hi1].
    destruct (step_keep P _ c "close" cl2 (fillna_value x cl2) HP Hw1 Hi1 Ecl2
                (fillna_value_somes _ _)) as [Hw2 Hi2].
    refine (proj2 (foldM_inv (fun w => rows_wf w /\ col_all P w c) _ _ _ _ _ (conj Hw2 Hi2) Ea3)).
    intros w c' w' [Hww Hwi] Hs. inv_bind_as Hs v Hv. inv_bind_as Hs clw Hclw. injection Hs as <-.
    exact (step_keep _ _ _ _ _ _ HP Hww Hwi Hv (fillna_series_somes _ _)). }
  assert (Hhas : forall c, has_col a3 c = true -> col_pos c (columns d) <> None).
  { intros c Hc. unfold has_col in Hc. rewrite HcolS in Hc.
    destruct (col_pos c (columns d)); [discriminate | discriminate Hc]. }
  apply fill_fixed_point.
  - (* a row exists: the open column read before the first fill had a value *)
    destruct (get_col_pos _ _ _ Ecl) as [kc Hkc].
    destruct (set_col_keep a0 "close" kc (ffill cl) Hkc) as [_ [_ Hr1]].
    destruct (zero_fill_keep _ _ _ Ea0) as [_ [_ Hr0]].
    destruct (copy_constants_keep _ _ _ Ea) as [_ [_ Hr]].
    apply same_outside_fst in Hr1, Hr0, Hr.
    intros Hnil. unfold index in HidxS. rewrite Hnil in HidxS. cbn [map] in HidxS.
    rewrite <- Hr, <- Hr0, <- Hr1 in HidxS. symmetry in HidxS. apply map_eq_nil in HidxS.
    unfold get_col in Eop. destruct (col_pos _ _); [|discriminate Eop]. injection Eop as <-.
    rewrite HidxS in Ex. discriminate Ex.
  - (* constant columns: one value, set by the constant loop *)
    intros c Hc Hh. apply Hhas in Hh. destruct (col_pos c (columns d)) as [k|] eqn:Hk; [|congruence].
    assert (Ia : exists v, col_all (fun o => o = Some v) a c).
    { refine (foldM_establish _ _ c (fun w => rows_wf w /\ columns w = columns d)
                (fun w => exists v, col_all (fun o => o = Some v) w c) d a _ _ _ Hc (conj Hw eq_refl) Ea).
      - intros w b w' Hq Hs. exact (const_step_shape _ _ _ _ Hq Hs).
      - intros w b w' [Hww _] [v Hv] Hs. exists v. exact (proj2 (const_step_keep _ _ _ _ _ Hww Hv Hs)).
      - intros w w' [Hww Hwc] Hs. unfold has_col in Hs. rewrite Hwc, Hk in Hs.
        unfold copy_constant_col_to_all_rows in Hs. inv_bind_as Hs old Hg.
        destruct (distinct_cells (nonnull_values old)) as [|v' [|]]; try discriminate Hs.
        injection Hs as <-. exists v'. rewrite <- Hwc in Hk.
        unfold get_col in Hg. rewrite Hk in Hg. injection Hg as <-.
        apply (set_col_all_same _ _ _ _ _ Hww Hk); [rewrite !length_map; reflexivity|].
        apply Forall_forall. intros o Ho. apply in_map_iff in Ho as [? [<- _]]. reflexivity. }
    destruct Ia as [v Ia]. exists v.
    assert (HP : forall o, o = Some v -> o <> None) by (intros o -> ; discriminate).
    apply (Hpost _ _ HP).
    refine (proj2 (foldM_inv (fun w => rows_wf w /\ col_all (fun o => o = Some v) w c) _ _ _ _ _
                     (conj (proj1 Qa) Ia) Ea0)).
    intros w c' w' [Hww Hwi] Hs. exact (zero_step_keep _ _ _ _ _ HP Hww Hwi Hs).
  - (* zero-fill columns: no null after their own step *)
    intros c Hc Hh. apply Hhas in Hh. destruct (col_pos c (columns d)) as [k|] eqn:Hk; [|congruence].
    assert (HP : forall o : option cell, o <> None -> o <> None) by auto.
    apply (Hpost _ _ HP).
    refine (foldM_establish _ _ c (fun w => rows_wf w /\ columns w = columns d)
              (fun w => col_all (fun o => o <> None) w c) a a0 _ _ _ Hc Qa Ea0).
    + intros w b w' Hq Hs. exact (zero_step_shape _ _ _ _ Hq Hs).
    + intros w b w' [Hww _] Hwi Hs. exact (proj2 (zero_step_keep _ _ _ _ _ HP Hww Hwi Hs)).
    + intros w w' [Hww Hwc] Hs. unfold has_col in Hs. rewrite Hwc, Hk in Hs.
      inv_bind_as Hs old Hg. injection Hs as <-. rewrite <- Hwc in Hk.
      unfold get_col in Hg. rewrite Hk in Hg. injection Hg as <-.
      apply (set_col_all_same _ _ _ _ _ Hww Hk); [unfold fillna_value; rewrite !length_map; reflexivity|].
      apply Forall_forall. intros o Ho. unfold fillna_value in Ho.
      apply in_map_iff in Ho as [o' [<- _]]. destruct o'; discriminate.
  - (* OHLCV columns: checked by the final assertion *)
    destruct (check_fold_ok _ _ _ Echk) as [_ Hall]. intros c Hc.
    destruct (Hall c Hc) as [v [Hv Hn]]. destruct (get_col_pos _ _ _ Hv) as [k Hk].
    split; [unfold has_col; rewrite Hk; reflexivity|].
    unfold get_col in Hv. rewrite Hk in Hv. injection Hv as <-.
    intros r Hr. rewrite (row_get_pos _ _ _ _ Hk).
    unfold all_nonnull in Hn. rewrite forallb_forall in Hn.
    specialize (Hn (cell_at k r) (in_map _ _ _ Hr)). unfold cell_at in Hn.
    destruct (nth k (snd r) None); [discriminate | discriminate Hn].
Qed.

Lemma fill_ohlcv_idempotent_witness :
  exists d', fill_ohlcv (first_row_nulled "AAPL") = Ok d' /\ fill_ohlcv d' = Ok d'.
Proof.
  eexists. split; [vm_compute; reflexivity|].
  match goal with |- fill_ohlcv ?x = _ =>
    assert (H : fill_ohlcv (first_row_nulled "AAPL") = Ok x) by (vm_compute; reflexivity) end.
  refine (fill_ohlcv_idempotent _ _ _ _ _ H).
  unfold rows_wf. vm_compute. repeat constructor.
Defined.

Lemma Qplus_swap_eq (a b c : Q) : (a + (b + c))%Q = (b + (a + c))%Q.
Proof.
  destruct a as [na da], b as [nb db], c as [nc dc]. unfold Qplus. cbn [Qnum Qden].
  f_equal.
  - rewrite !Pos2Z.inj_mul. ring.
  - rewrite !Pos.mul_assoc, (Pos.mul_comm da db). reflexivity.
Qed.

Lemma col_sum_perm (f : OHLCVAgg -> Q) (l l' : list OHLCVAgg) :
  Permutation l l' -> col_sum f l = col_sum f l'.
Proof.
  unfold col_sum. induction 1; cbn [fold_right]; try congruence. apply Qplus_swap_eq.
Qed.

(** The volume, vwap and transactions of a bar built by [create_from_aggs]
    are the sums of those of the input bars (vwap is summed, not
    averaged), its avg_size is their mean, its open is the open of a bar
    with the earliest start time and its close the close of a bar with the
    latest start time. *)
Theorem create_from_aggs_fields (sp : OHLCVAggSpec) (l : list OHLCVAgg) (x : OHLCVAgg) :
  create_from_aggs sp l = Ok x ->
  x.(volume) = col_sum volume l /\ x.(vwap) = col_sum vwap l /\
  x.(transactions) = col_sum transactions l /\ x.(avg_size) = col_mean avg_size l /\
  (exists b, In b l /\ (forall b', In b' l -> b.(start_ts) <= b'.(start_ts)) /\ x.(open) = b.(open)) /\
  (exists b, In b l /\ (forall b', In b' l -> b'.(start_ts) <= b.(start_ts)) /\ x.(close) = b.(close)).
Proof.
  unfold create_from_aggs. intros H.
  destruct (sort_index l) as [|first rest] eqn:Hs; [discriminate H|].
  destruct (1 <? label_count _ _)%nat in H; [discriminate H|].
  destruct (1 <? label_count _ _)%nat in H; [discriminate H|].
  apply construct_ok_eq in H. subst x.
  cbn [volume vwap transactions avg_size open close].
  pose proof (sort_index_perm l) as Hp. rewrite Hs in Hp.
  destruct (sort_index_cons _ _ _ Hs) as (Hf & Hl & Hall).
  split; [apply col_sum_perm, Hp|]. split; [apply col_sum_perm, Hp|].
  split; [apply col_sum_perm, Hp|].
  split; [unfold col_mean; rewrite (col_sum_perm _ _ _ Hp), (Permutation_length Hp); reflexivity|].
  split.
  - exists first. split; [exact Hf|]. split; [|reflexivity].
    intros b' Hb'. exact (proj1 (Hall b' Hb')).
  - eexists. split; [exact Hl|]. split; [|reflexivity].
    intros b' Hb'. exact (proj2 (Hall b' Hb')).
Qed.

Lemma create_from_aggs_fields_witness :
  exists x, create_from_aggs (mkSpec "AAPL" MIN_5 0) [m1_bar 5 100 50; m1_bar 0 100 50] = Ok x /\
            x.(volume) = col_sum volume [m1_bar 5 100 50; m1_bar 0 100 50].
Proof.
  eexists. split; [vm_compute; reflexivity|].
  match goal with |- volume ?x = _ =>
    assert (H : create_from_aggs (mkSpec "AAPL" MIN_5 0) [m1_bar 5 100 50; m1_bar 0 100 50] = Ok x)
      by (vm_compute; reflexivity) end.
  exact (proj1 (create_from_aggs_fields _ _ _ H)).
Defined.
